(** * Shallow embedding of the llm-crawler backend

    Covers [data_models.py] (the parser-parameter merge, [from_url_prefix],
    [evaluate]), [db.py] (system state flag, production config, prefix
    lookup, prefix URL count), [redis_queue.py], [parser.py] (the
    extraction pipeline and the synthesis loop), [clean_html.py],
    [workers/parsing_worker.py] (URL normalisation, prefix derivation,
    link extraction, per-item processing) and
    [workers/parser_generation_worker.py] (the synthesis job). *)

From Stdlib Require Import ZArith Lia Bool Ascii String.
From stdpp Require Import base gmap sets list strings sorting.

Open Scope string_scope.
Set Warnings "-register-all".


(* ================================================================== *)
(** ** Python string helpers *)

Module Py.

(** [sub in s] *)
Definition contains (sub s : string) : bool :=
  match String.index 0 sub s with Some _ => true | None => false end.

(** [s.startswith(p)] *)
Definition startswith (p s : string) : bool := String.prefix p s.

(** [s.endswith(p)] *)
Definition endswith (p s : string) : bool :=
  String.prefix (String.rev p) (String.rev s).

(** One ASCII character lowered as [str.lower] does. *)
Definition lower_char (c : ascii) : ascii :=
  let n := Ascii.nat_of_ascii c in
  if (65 <=? n)%nat && (n <=? 90)%nat then Ascii.ascii_of_nat (n + 32)%nat else c.

Fixpoint lower (s : string) : string :=
  match s with
  | EmptyString => EmptyString
  | String c s' => String (lower_char c) (lower s')
  end.

(** Python's [str.strip()] whitespace (ASCII part). *)
Definition is_ws (c : ascii) : bool :=
  let n := Ascii.nat_of_ascii c in
  ((n =? 32) || ((9 <=? n) && (n <=? 13)) || (28 <=? n) && (n <=? 31))%nat.

Fixpoint lstrip (s : string) : string :=
  match s with
  | EmptyString => EmptyString
  | String c s' => if is_ws c then lstrip s' else s
  end.

Definition strip (s : string) : string :=
  String.rev (lstrip (String.rev (lstrip s))).

(** [s.split(c)] for a one-character separator. *)
Fixpoint split_go (c : ascii) (cur : string) (s : string) : list string :=
  match s with
  | EmptyString => [String.rev cur]
  | String d s' =>
      if Ascii.eqb c d then String.rev cur :: split_go c "" s'
      else split_go c (String d cur) s'
  end.

Definition split (c : ascii) (s : string) : list string := split_go c "" s.

(** [sep.join(l)] *)
Definition join (sep : string) (l : list string) : string := String.concat sep l.

(** [s.replace(old, new)] for a non-empty [old]. *)
Fixpoint replace_go (fuel : nat) (old new s : string) : string :=
  match fuel with
  | O => s
  | S fuel' =>
      match s with
      | EmptyString => EmptyString
      | String c s' =>
          if String.prefix old s
          then String.append new
                 (replace_go fuel' old new
                    (String.substring (String.length old)
                       (String.length s - String.length old)%nat s))
          else String c (replace_go fuel' old new s')
      end
  end.

Definition replace (old new s : string) : string :=
  replace_go (S (String.length s)) old new s.

(** [s[k:]] and [s[:-1]] *)
Definition drop (k : nat) (s : string) : string :=
  String.substring k (String.length s - k)%nat s.

Definition drop_last (s : string) : string :=
  String.substring 0 (String.length s - 1)%nat s.

(** Truthiness of an optional string ([None] and [""] are falsy). *)
Definition truthy (o : option string) : bool :=
  match o with Some s => negb (String.eqb s "") | None => false end.

End Py.

(* ================================================================== *)
(** ** data_models.py *)

Record SampleURL := mkSampleURL {
  s_url : string;
  s_raw_content : option string;
  s_label : option string
}.

Record URL := mkURL {
  url : string;
  prefix : option string;
  raw_content : option string;
  parsed_content : option string
}.

Record URLQueueItem := mkURLQueueItem {
  q_url : URL;
  process_from_unix_timestamp : Z;
  times_queued : Z
}.

Record ParserParameters := mkParserParameters {
  root : list string;
  keep : list string;
  drop : list string;
  unwrap : list string
}.

(** [ParserConfig]; its [id] is derived from [prefix_name] by the model
    validator, so it is not a separate field here. *)
Record ParserConfig := mkParserConfig {
  parameters : ParserParameters;
  prefix_name : string
}.

Record URLPrefix := mkURLPrefix {
  up_prefix : string;
  sample_urls : list SampleURL;
  validation_urls : option (list SampleURL);
  parser_config : option ParserConfig;
  processing_status : option string
}.

(** [list(set(a) | set(b))]: a Python set is a [gset string]; the list
    built from it has no duplicates and an implementation-chosen order. *)
Definition set_union_list (a b : list string) : list string :=
  elements (list_to_set a ∪ list_to_set b : gset string).

(** [ParserParameters.__add__] *)
Definition pp_add (self other : ParserParameters) : ParserParameters :=
  mkParserParameters
    (set_union_list (root self) (root other))
    (set_union_list (keep self) (keep other))
    (set_union_list (drop self) (drop other))
    (set_union_list (unwrap self) (unwrap other)).

(** [ParserConfig.__add__]: the left operand's prefix name is kept. *)
Definition pc_add (self other : ParserConfig) : ParserConfig :=
  mkParserConfig (pp_add (parameters self) (parameters other)) (prefix_name self).

(** Selector-set equality of two parameter values. *)
Definition sel_set (l : list string) : gset string := list_to_set l.

Definition pp_equiv (a b : ParserParameters) : Prop :=
  sel_set (root a) = sel_set (root b) /\ sel_set (keep a) = sel_set (keep b) /\
  sel_set (drop a) = sel_set (drop b) /\ sel_set (unwrap a) = sel_set (unwrap b).

Definition pc_equiv (a b : ParserConfig) : Prop :=
  prefix_name a = prefix_name b /\ pp_equiv (parameters a) (parameters b).

(* ================================================================== *)
(** ** db.py: the system state flag *)

(** The stored value of key [system_state] ([None] when unset). *)
Definition get_system_state (stored : option string) : string :=
  match stored with
  | Some s => if String.eqb s "" then "RUNNING" else s
  | None => "RUNNING"
  end.

(** [set_system_state]: the error branch is the [ValueError]. *)
Definition set_system_state (stored : option string) (state : string)
  : string + option string :=
  if existsb (String.eqb state) ["PAUSE"; "RUNNING"]
  then inr (Some state)
  else inl "State must be either 'PAUSE' or 'RUNNING'".

(* ================================================================== *)
(** ** The document tree (BeautifulSoup) *)

(** A tag with its name, attributes and children, or a navigable string.
    The [BeautifulSoup] object is itself the tag ["[document]"]. *)
Inductive node :=
| Elem (name : string) (attrs : list (string * string)) (children : list node)
| Text (s : string).

(** Node identity ([id(el)]): the path of child indices from the
    document; the document is [[]]. *)
Definition path := list nat.

Definition name_in (t : string) (names : list string) : bool :=
  existsb (String.eqb t) names.

(** A CSS type selector [sel] (lxml lowercases tag names). *)
Definition matches_sel (sel : string) (n : node) : bool :=
  match n with Elem t _ _ => String.eqb t sel | Text _ => false end.

(** Paths of the tags under [n] (itself included) satisfying [m], in
    document order. *)
Fixpoint sel_node (m : node -> bool) (p : path) (n : node) : list path :=
  match n with
  | Text _ => []
  | Elem _ _ kids =>
      app (if m n then [p] else [])
      ((fix go (i : nat) (ks : list node) : list path :=
         match ks with
         | [] => []
         | k :: ks' => app (sel_node m (app p [i]) k) (go (S i) ks')
         end) 0 kids)
  end.

(** [soup.select(...)]: the document itself is never returned. *)
Definition select (m : node -> bool) (soup : node) : list path :=
  List.filter (fun q => match q with [] => false | _ => true end) (sel_node m [] soup).

Fixpoint is_prefix (r q : path) : bool :=
  match r, q with
  | [], _ => true
  | i :: r', j :: q' => Nat.eqb i j && is_prefix r' q'
  | _ :: _, [] => false
  end.

(** Membership in [keep_set] built from [roots]: a root, one of its
    descendants ([r] prefix of [q]) or one of its parents ([q] prefix
    of [r]). *)
Definition in_keep_set (roots : list path) (q : path) : bool :=
  existsb (fun r => is_prefix r q || is_prefix q r) roots.

(** The walk over [soup.find_all(True)] that decomposes every tag outside
    the keep set, except [html], [head] and [body].  Text nodes are not
    tags and are only removed with their parent. *)
Fixpoint prune_node (keepf : path -> bool) (p : path) (n : node) : list node :=
  match n with
  | Text _ => [n]
  | Elem t a kids =>
      if name_in t ["html"; "head"; "body"] || keepf p
      then [Elem t a
              ((fix go (i : nat) (ks : list node) : list node :=
                  match ks with
                  | [] => []
                  | k :: ks' => app (prune_node keepf (app p [i]) k) (go (S i) ks')
                  end) 0 kids)]
      else []
  end.

(** The document is never decomposed; whenever roots exist it is in the
    keep set (it is a parent of each root). *)
Definition prune_soup (keepf : path -> bool) (soup : node) : node :=
  match prune_node keepf [] soup with [s] => s | _ => soup end.

(** Apply a per-child rewrite to the children of the document. *)
Definition on_children (f : node -> list node) (soup : node) : node :=
  match soup with
  | Elem t a kids => Elem t a (List.concat (List.map f kids))
  | Text _ => soup
  end.

(** [for el in soup.select(sel): el.decompose()] *)
Fixpoint decompose_matching (m : node -> bool) (n : node) : list node :=
  match n with
  | Text _ => [n]
  | Elem t a kids =>
      if m n then [] else [Elem t a (List.concat (List.map (decompose_matching m) kids))]
  end.

(** [for el in soup.select(sel): el.unwrap()] *)
Fixpoint unwrap_matching (m : node -> bool) (n : node) : list node :=
  match n with
  | Text _ => [n]
  | Elem t a kids =>
      let kids' := List.concat (List.map (unwrap_matching m) kids) in
      if m n then kids' else [Elem t a kids']
  end.

(** [roots = []; for sel in selectors: roots.extend(soup.select(sel))] *)
Definition select_all (sels : list string) (soup : node) : list path :=
  List.concat (List.map (fun sel => select (matches_sel sel) soup) sels).

(** The root (and keep) restriction step of [_trim_soup]. *)
Definition restrict_step (sels : list string) (soup : node) : node :=
  match sels with
  | [] => soup
  | _ =>
      match select_all sels soup with
      | [] => soup
      | roots => prune_soup (in_keep_set roots) soup
      end
  end.

Definition root_step (pp : ParserParameters) (soup : node) : node :=
  restrict_step (root pp) soup.

Definition drop_step (pp : ParserParameters) (soup : node) : node :=
  List.fold_left (fun s sel => on_children (decompose_matching (matches_sel sel)) s)
    (drop pp) soup.

Definition unwrap_step (pp : ParserParameters) (soup : node) : node :=
  List.fold_left (fun s sel => on_children (unwrap_matching (matches_sel sel)) s)
    (unwrap pp) soup.

Definition keep_step (pp : ParserParameters) (soup : node) : node :=
  restrict_step (keep pp) soup.

(** [Parser._trim_soup] *)
Definition trim_soup (pp : ParserParameters) (soup : node) : node :=
  keep_step pp (unwrap_step pp (drop_step pp (root_step pp soup))).

(* ------------------------------------------------------------------ *)
(** *** clean_html.py *)

Definition attr (a : list (string * string)) (k : string) : option string :=
  option_map snd (List.find (fun kv => String.eqb (fst kv) k) a).

(** [[hidden], [aria-hidden='true'], [style*='display:none'],
    [style*='visibility:hidden']] *)
Definition is_hidden (n : node) : bool :=
  match n with
  | Text _ => false
  | Elem _ a _ =>
      match attr a "hidden" with Some _ => true | None => false end ||
      match attr a "aria-hidden" with Some v => String.eqb v "true" | None => false end ||
      match attr a "style" with
      | Some v => Py.contains "display:none" v || Py.contains "visibility:hidden" v
      | None => false
      end
  end.

(** [br.replace_with(NavigableString("\n"))] *)
Fixpoint replace_br (n : node) : list node :=
  match n with
  | Text _ => [n]
  | Elem t a kids =>
      if String.eqb t "br" then [Text (String "010"%char EmptyString)]
      else [Elem t a (List.concat (List.map replace_br kids))]
  end.

Definition clean_html (soup : node) : node :=
  let soup := on_children (decompose_matching (fun n =>
                match n with
                | Elem t _ _ => name_in t ["style"; "svg"; "canvas"; "template";
                                           "head"; "meta"; "noscript"]
                | Text _ => false
                end)) soup in
  let soup := on_children (decompose_matching is_hidden) soup in
  on_children replace_br soup.

(* ------------------------------------------------------------------ *)
(** *** Parser._soup_to_text *)

Definition nl : string := String "010"%char EmptyString.

Definition blockish : list string :=
  ["p"; "div"; "section"; "article"; "header"; "footer"; "aside"; "main"; "nav";
   "h1"; "h2"; "h3"; "h4"; "h5"; "h6"; "li"; "ul"; "ol"; "table"; "thead"; "tbody";
   "tr"; "td"; "th"; "figure"; "figcaption"; "pre"].

(** [tag.insert_before("\n"); tag.append("\n")] for every block tag. *)
Fixpoint mark_blocks (n : node) : list node :=
  match n with
  | Text _ => [n]
  | Elem t a kids =>
      let kids' := List.concat (List.map mark_blocks kids) in
      if name_in t blockish then [Text nl; Elem t a (app kids' [Text nl])]
      else [Elem t a kids']
  end.

(** Strings seen by [get_text]: those inside [script], [style],
    [template], [rt] and [rp] get special string classes that
    [get_text] leaves out. *)
Fixpoint all_strings (inside : bool) (n : node) : list string :=
  match n with
  | Text s => if inside then [] else [s]
  | Elem t _ kids =>
      List.concat (List.map (all_strings
        (inside || name_in t ["script"; "style"; "template"; "rt"; "rp"])) kids)
  end.

(** [soup.get_text(separator=" ", strip=True)] *)
Definition get_text (soup : node) : string :=
  Py.join " " (List.filter (fun s => negb (String.eqb s ""))
                 (List.map Py.strip (all_strings false soup))).

(** [re.sub(r"[ \t]+", " ", text)] *)
Fixpoint sub_spaces (inrun : bool) (s : string) : string :=
  match s with
  | EmptyString => EmptyString
  | String c s' =>
      if Ascii.eqb c " "%char || Ascii.eqb c "009"%char
      then (if inrun then sub_spaces true s' else String " "%char (sub_spaces true s'))
      else String c (sub_spaces false s')
  end.

Fixpoint nls (k : nat) : string :=
  match k with O => EmptyString | S k' => String "010"%char (nls k') end.

Definition emit_nls (k : nat) : string := if (3 <=? k)%nat then nls 2 else nls k.

(** [re.sub(r"\n{3,}", "\n\n", text)]; [k] counts the pending newlines. *)
Fixpoint sub_newlines (k : nat) (s : string) : string :=
  match s with
  | EmptyString => emit_nls k
  | String c s' =>
      if Ascii.eqb c "010"%char then sub_newlines (S k) s'
      else String.append (emit_nls k) (String c (sub_newlines 0 s'))
  end.

Definition soup_to_text (soup : node) : string :=
  let soup := clean_html soup in
  let soup := on_children mark_blocks soup in
  let text := get_text soup in
  Py.strip (sub_newlines 0 (sub_spaces false text)).


(* ------------------------------------------------------------------ *)
(** *** Reading markup: [BeautifulSoup(content, "lxml")]

    lxml is a library, not code of this repository.  [read_html] covers
    attribute-free markup whose tags are balanced and rooted at one
    [html] element holding only [head]/[body]: on such input lxml builds
    exactly the nesting written in the markup.  Any other input is
    outside the reader ([None]). *)

Inductive tok := TOpen (n : string) | TClose (n : string) | TText (s : string).

Fixpoint read_name (s : string) : option (string * string) :=
  match s with
  | EmptyString => None
  | String c s' =>
      if Ascii.eqb c ">"%char then Some (EmptyString, s')
      else if Ascii.eqb c "<"%char then None
      else option_map (fun nr => (String c (fst nr), snd nr)) (read_name s')
  end.

Fixpoint read_text (s : string) : string * string :=
  match s with
  | EmptyString => (EmptyString, EmptyString)
  | String c s' =>
      if Ascii.eqb c "<"%char then (EmptyString, s)
      else let tr := read_text s' in (String c (fst tr), snd tr)
  end.

Definition name_char (c : ascii) : bool :=
  let n := Ascii.nat_of_ascii c in
  ((97 <=? n) && (n <=? 122) || (48 <=? n) && (n <=? 57))%nat.

Fixpoint all_name_chars (s : string) : bool :=
  match s with
  | EmptyString => true
  | String c s' => name_char c && all_name_chars s'
  end.

Definition tag_tok (name : string) : option tok :=
  match name with
  | String "/"%char n => if all_name_chars n && negb (String.eqb n "") then Some (TClose n) else None
  | _ => if all_name_chars name && negb (String.eqb name "") then Some (TOpen name) else None
  end.

Fixpoint lex (fuel : nat) (s : string) : option (list tok) :=
  match fuel with
  | O => None
  | S f =>
      match s with
      | EmptyString => Some []
      | String c s' =>
          if Ascii.eqb c "<"%char then
            match read_name s' with
            | Some (nm, rest) =>
                match tag_tok nm, lex f rest with
                | Some t, Some ts => Some (t :: ts)
                | _, _ => None
                end
            | None => None
            end
          else
            let tr := read_text s in
            option_map (fun ts => TText (fst tr) :: ts) (lex f (snd tr))
      end
  end.

(** Tree building with a stack of open tags (name, children reversed). *)
Fixpoint build (ts : list tok) (stack : list (string * list node))
    (top : list node) : option (list node) :=
  match ts with
  | [] => match stack with [] => Some (List.rev top) | _ => None end
  | TOpen n :: ts' => build ts' ((n, []) :: stack) top
  | TText s :: ts' =>
      match stack with
      | (m, ks) :: rest => build ts' ((m, Text s :: ks) :: rest) top
      | [] => build ts' [] (Text s :: top)
      end
  | TClose n :: ts' =>
      match stack with
      | (m, ks) :: rest =>
          if String.eqb m n then
            let e := Elem m [] (List.rev ks) in
            match rest with
            | (pm, pks) :: rest' => build ts' ((pm, e :: pks) :: rest') top
            | [] => build ts' [] (e :: top)
            end
          else None
      | [] => None
      end
  end.

Definition lxml_shape (kids : list node) : bool :=
  match kids with
  | [Elem "html" _ hk] =>
      forallb (fun k => match k with
                        | Elem t _ _ => name_in t ["head"; "body"]
                        | Text _ => false
                        end) hk
  | _ => false
  end.

Definition read_html (content : string) : option node :=
  match lex (S (String.length content)) content with
  | Some ts =>
      match build ts [] [] with
      | Some kids => if lxml_shape kids then Some (Elem "[document]" [] kids) else None
      | None => None
      end
  | None => None
  end.

(** [Parser.parse] *)
Definition Parser_parse (config : ParserConfig) (content : string) : option string :=
  option_map (fun soup => soup_to_text (trim_soup (parameters config) soup))
    (read_html content).


(* ================================================================== *)
(** ** urllib.parse.urlparse (Python 3.12) *)

Module Url.

(** [s.find(sub, start)] as an option. *)
Definition find_from (start : nat) (sub s : string) : option nat :=
  String.index start sub s.

(** [s.rfind(c)] for a one-character [c]. *)
Fixpoint rfind_go (c : ascii) (i : nat) (best : option nat) (s : string) : option nat :=
  match s with
  | EmptyString => best
  | String d s' => rfind_go c (S i) (if Ascii.eqb c d then Some i else best) s'
  end.

Definition rfind (c : ascii) (s : string) : option nat := rfind_go c 0 None s.

Definition take (k : nat) (s : string) : string := String.substring 0 k s.

(** [s.split(c, 1)] cut at the first [c] (which must occur). *)
Definition split1 (c : string) (s : string) : string * string :=
  match find_from 0 c s with
  | Some i => (take i s, Py.drop (S i) s)
  | None => (s, EmptyString)
  end.

Definition is_c0_or_space (c : ascii) : bool := (Ascii.nat_of_ascii c <=? 32)%nat.

Fixpoint lstrip_c0 (s : string) : string :=
  match s with
  | EmptyString => EmptyString
  | String c s' => if is_c0_or_space c then lstrip_c0 s' else s
  end.

(** Removal of [_UNSAFE_URL_BYTES_TO_REMOVE] (tab, CR, LF). *)
Fixpoint remove_unsafe (s : string) : string :=
  match s with
  | EmptyString => EmptyString
  | String c s' =>
      let n := Ascii.nat_of_ascii c in
      if ((n =? 9) || (n =? 10) || (n =? 13))%nat then remove_unsafe s'
      else String c (remove_unsafe s')
  end.

Definition is_alpha (c : ascii) : bool :=
  let n := Ascii.nat_of_ascii c in
  ((65 <=? n) && (n <=? 90) || (97 <=? n) && (n <=? 122))%nat.

Definition is_scheme_char (c : ascii) : bool :=
  let n := Ascii.nat_of_ascii c in
  is_alpha c || ((48 <=? n) && (n <=? 57))%nat ||
  Ascii.eqb c "+"%char || Ascii.eqb c "-"%char || Ascii.eqb c "."%char.

Fixpoint all_scheme_chars (s : string) : bool :=
  match s with
  | EmptyString => true
  | String c s' => is_scheme_char c && all_scheme_chars s'
  end.

(** [_splitnetloc(url, 2)] *)
Definition splitnetloc (s : string) : string * string :=
  let delim :=
    List.fold_left
      (fun d c => match find_from 2 c s with Some w => Nat.min d w | None => d end)
      ["/"; "?"; "#"] (String.length s) in
  (String.substring 2 (delim - 2)%nat s, Py.drop delim s).

Record SplitResult := mkSplit {
  scheme : string; netloc : string; spath : string;
  params : string; query : string; fragment : string
}.

(** [urlsplit]; the error is the [ValueError] for unbalanced brackets.
    Bracketed hosts are not checked further ([_check_bracketed_netloc]),
    and the netloc is taken to be ASCII ([_checknetloc] returns). *)
Definition urlsplit (url0 : string) : string + SplitResult :=
  let u := remove_unsafe (lstrip_c0 url0) in
  let '(sch, u) :=
    match find_from 0 ":" u with
    | Some (S _ as i) =>
        match u with
        | String c0 _ =>
            if is_alpha c0 && all_scheme_chars (take i u)
            then (Py.lower (take i u), Py.drop (S i) u) else (EmptyString, u)
        | EmptyString => (EmptyString, u)
        end
    | _ => (EmptyString, u)
    end in
  let '(nl, u) := if String.prefix "//" u then splitnetloc u else (EmptyString, u) in
  if (Py.contains "[" nl && negb (Py.contains "]" nl)) ||
     (Py.contains "]" nl && negb (Py.contains "[" nl))
  then inl "Invalid IPv6 URL"
  else
    let '(u, frag) := if Py.contains "#" u then split1 "#" u else (u, EmptyString) in
    let '(u, q) := if Py.contains "?" u then split1 "?" u else (u, EmptyString) in
    inr (mkSplit sch nl u EmptyString q frag).

Definition uses_params : list string :=
  [""; "ftp"; "hdl"; "prospero"; "http"; "imap"; "https"; "shttp"; "rtsp";
   "rtsps"; "rtspu"; "sip"; "sips"; "mms"; "sftp"; "tel"].

(** [_splitparams] *)
Definition splitparams (u : string) : string * string :=
  let i := if Py.contains "/" u
           then match rfind "/"%char u with
                | Some j => find_from j ";" u
                | None => None
                end
           else find_from 0 ";" u in
  match i with
  | Some i => (take i u, Py.drop (S i) u)
  | None => (u, EmptyString)
  end.

(** [urlparse] *)
Definition urlparse (u : string) : string + SplitResult :=
  match urlsplit u with
  | inl e => inl e
  | inr r =>
      if name_in (scheme r) uses_params && Py.contains ";" (spath r)
      then let '(p, prm) := splitparams (spath r) in
           inr (mkSplit (scheme r) (netloc r) p prm (query r) (fragment r))
      else inr r
  end.

End Url.

(* ================================================================== *)
(** ** workers/parsing_worker.py *)

Definition tracking_params : list string :=
  ["utm_source"; "utm_medium"; "utm_campaign"; "utm_term"; "utm_content";
   "fbclid"; "gclid"; "msclkid"; "ref"; "source"; "campaign";
   "sessionid"; "sid"; "token"; "auth"; "key"].

(** Python's ordering of [(key, value)] string tuples. *)
Definition pair_leb (a b : string * string) : bool :=
  match String.compare (fst a) (fst b) with
  | Lt => true
  | Gt => false
  | Eq => match String.compare (snd a) (snd b) with Gt => false | _ => true end
  end.

Fixpoint insert_sorted (x : string * string) (l : list (string * string)) :=
  match l with
  | [] => [x]
  | y :: l' => if pair_leb x y then x :: l else y :: insert_sorted x l'
  end.

Definition sort_pairs (l : list (string * string)) : list (string * string) :=
  List.fold_right insert_sorted [] l.

Section Normalize.

(** [urllib.parse.parse_qs] (a dict in insertion order) and
    [urllib.parse.urlencode], library functions left abstract. *)
Variable parse_qs : string -> list (string * list string).
Variable urlencode : list (string * string) -> string.

(** [ParsingWorker.normalize_url] *)
Definition normalize_url (u : string) : string :=
  match Url.urlparse u with
  | inl _ => u
  | inr parsed =>
      let sch := Py.lower (Url.scheme parsed) in
      let nl := Py.lower (Url.netloc parsed) in
      let nl := if Py.startswith "www." nl then Py.drop 4 nl else nl in
      let nl := if String.eqb sch "https" && Py.contains ":443" nl
                then Py.replace ":443" "" nl
                else if String.eqb sch "http" && Py.contains ":80" nl
                then Py.replace ":80" "" nl
                else nl in
      let pth := Url.spath parsed in
      let pth := if negb (String.eqb pth "/") && Py.endswith "/" pth
                 then Py.drop_last pth else pth in
      let qp :=
        if String.eqb (Url.query parsed) "" then []
        else sort_pairs
               (List.concat (List.map (fun kv =>
                  if name_in (Py.lower (fst kv)) tracking_params then []
                  else List.map (fun v => (fst kv, v))
                         (List.filter (fun v => negb (String.eqb (Py.strip v) ""))
                            (snd kv)))
                  (parse_qs (Url.query parsed)))) in
      let base := String.append sch (String.append "://" (String.append nl pth)) in
      match qp with
      | [] => base
      | _ => String.append base (String.append "?" (urlencode qp))
      end
  end.

End Normalize.


(** The shared store and the two work queues.  A queue is the Redis list:
    [add_to_queue] is [LPUSH] (the list head here), [get_from_queue] is
    [RPOP] (the list end). *)
Record Store := mkStore {
  urls : gmap string URL;                 (* model:URL:<url> *)
  prefixes : gmap string URLPrefix;       (* model:URLPrefix:<prefix> *)
  url_queue : list URLQueueItem;          (* queue:urlqueueitem *)
  prefix_queue : list URLPrefix           (* queue:urlprefix *)
}.

Definition push_url (qi : URLQueueItem) (st : Store) : Store :=
  mkStore (urls st) (prefixes st) (qi :: url_queue st) (prefix_queue st).

Definition push_prefix (p : URLPrefix) (st : Store) : Store :=
  mkStore (urls st) (prefixes st) (url_queue st) (p :: prefix_queue st).

Definition save_url (u : URL) (st : Store) : Store :=
  mkStore (<[url u := u]> (urls st)) (prefixes st) (url_queue st) (prefix_queue st).

Definition save_prefix (p : URLPrefix) (st : Store) : Store :=
  mkStore (urls st) (<[up_prefix p := p]> (prefixes st)) (url_queue st) (prefix_queue st).

(** [db.find_prefix_for_url]: try [/].join(parts[:i]) for i from
    len(parts) down to 1. *)
Fixpoint try_prefixes (ps : gmap string URLPrefix) (parts : list string) (i : nat)
  : option URLPrefix :=
  match i with
  | O => None
  | S i' =>
      match ps !! Py.join "/" (firstn i parts) with
      | Some p => Some p
      | None => try_prefixes ps parts i'
      end
  end.

Definition find_prefix_for_url (ps : gmap string URLPrefix) (u : string) : option URLPrefix :=
  let parts := Py.split "/"%char u in try_prefixes ps parts (length parts).

(** [db.find_urls_with_prefix] *)
Definition find_urls_with_prefix (st : Store) (p : string) : list URL :=
  List.filter (fun u => match prefix u with Some q => String.eqb q p | None => false end)
    (List.map snd (map_to_list (urls st))).

Fixpoint drop_empty_tail_rev (rparts : list string) : list string :=
  match rparts with
  | "" :: r => drop_empty_tail_rev r
  | _ => rparts
  end.

(** [ParsingWorker.get_deepest_prefix] *)
Definition get_deepest_prefix (u : string) : string :=
  let u := if Py.contains "?" u then List.hd "" (Py.split "?"%char u) else u in
  let u := if Py.contains "#" u then List.hd "" (Py.split "#"%char u) else u in
  let parts := Py.split "/"%char u in
  if (3 <? length parts)%nat then
    let r := drop_empty_tail_rev (List.rev parts) in
    let r := match r with [] => [] | _ :: r' => r' end in
    Py.join "/" (List.rev r)
  else Py.join "/" parts.

Inductive ItemStatus := Deferred | Dropped | Skipped | Error | Success | Requeued.

Section ParsingWorker.

(** [load_raw_html] (an error message on failure), [Parser(config).parse]
    ([inl] when it raises) and [extract_links_from_html]. *)
Variable load_raw_html : string -> string + string.
Variable parse : ParserConfig -> string -> string + string.
Variable extract_links_from_html : string -> string -> string -> list string.

Definition parsed_in_store (st : Store) (u : string) : bool :=
  match urls st !! u with Some e => Py.truthy (parsed_content e) | None => false end.

(** The branch for a prefix [p] that has a parser config [cfg]. *)
Definition process_with_config (now : Z) (qi : URLQueueItem) (p : URLPrefix)
    (cfg : ParserConfig) (st : Store) : ItemStatus * Store :=
  let u := url (q_url qi) in
  if parsed_in_store st u then (Skipped, st) else
  match load_raw_html u with
  | inl _ => (Error, st)
  | inr raw =>
      match parse cfg raw with
      | inl _ => (Error, st)
      | inr parsed =>
          let st1 := save_url (mkURL u (Some (up_prefix p)) (Some raw) (Some parsed)) st in
          let links := extract_links_from_html raw u (up_prefix p) in
          let st2 := List.fold_left (fun s l =>
                       if parsed_in_store s l then s
                       else push_url (mkURLQueueItem (mkURL l (Some (up_prefix p)) None None) now 0) s)
                       links st1 in
          (Success, st2)
      end
  end.

(** The branch for a URL without a prefix, or whose prefix has no config. *)
Definition process_without_config (now : Z) (qi : URLQueueItem) (st : Store)
  : ItemStatus * Store :=
  let u := url (q_url qi) in
  let deepest := get_deepest_prefix u in
  match load_raw_html u with
  | inl _ => (Error, st)
  | inr raw =>
      let sample := mkSampleURL u (Some raw) None in
      let '(pfx, st1) :=
        match prefixes st !! deepest with
        | Some e =>
            let e' := mkURLPrefix (up_prefix e) (app (sample_urls e) [sample])
                        (validation_urls e) (parser_config e) (processing_status e) in
            (e', save_prefix e' st)
        | None =>
            let n := mkURLPrefix deepest [sample] (Some []) None None in
            (n, save_prefix n st)
        end in
      let st2 := push_prefix pfx st1 in
      let qi' := mkURLQueueItem (q_url qi) (now + 30)%Z (times_queued qi + 1)%Z in
      (Requeued, push_url qi' st2)
  end.

(** [ParsingWorker.process_url_queue_item]; [now] is [int(time.time())]
    (the clock reads of one item are taken as one instant). *)
Definition process_url_queue_item (now : Z) (qi : URLQueueItem) (st : Store)
  : ItemStatus * Store :=
  if (now <? process_from_unix_timestamp qi)%Z then (Deferred, push_url qi st) else
  let up := find_prefix_for_url (prefixes st) (url (q_url qi)) in
  let over_cap :=
    match up with
    | Some p => (20 <=? length (find_urls_with_prefix st (up_prefix p)))%nat
    | None => false
    end in
  if over_cap then (Dropped, st) else
  match up with
  | Some p =>
      match parser_config p with
      | Some cfg => process_with_config now qi p cfg st
      | None => process_without_config now qi st
      end
  | None => process_without_config now qi st
  end.

End ParsingWorker.


(* ================================================================== *)
(** ** parser.py: ParserGenerator *)

Record ParserGeneratorConfig := mkParserGeneratorConfig {
  config_name : string;
  openai_model : string;
  reasoning_level : string;
  instructions_prompt : string;
  input_prompt_template : string;
  error_prompt : option string;
  reflection_prompt : option string
}.

Definition context_window_phrase : string :=
  "Your input exceeds the context window of this model".

Section Synthesis.

Variable config : ParserGeneratorConfig.

(** The inference calls, each followed by the strict
    [ParserParameters.model_validate_json]; [inl] carries [str(e)] of
    the raised exception.
    - [generate_call samples]: the call of [_generate_parser_num_examples],
      whose prompt is built from exactly [samples];
    - [repair_call sample previous error]: [_generate_parser_with_parsing_mistake];
    - [reflect_call sample accepted parsed]: one call of [_reflect_on_parser]. *)
Variable generate_call : list SampleURL -> string + ParserParameters.
Variable repair_call : SampleURL -> ParserConfig -> string -> string + ParserParameters.
Variable reflect_call : SampleURL -> ParserConfig -> string -> string + ParserParameters.
(** [Parser(config).parse(raw_content)], [inl] when it raises. *)
Variable parse : ParserConfig -> option string -> string + string.

(** [_validate_parser]: the first sample whose parse raises. *)
Fixpoint validate_parser (c : ParserConfig) (samples : list SampleURL)
  : option (SampleURL * string) :=
  match samples with
  | [] => None
  | s :: rest =>
      match parse c (s_raw_content s) with
      | inl e => Some (s, e)
      | inr _ => validate_parser c rest
      end
  end.

(** [_reflect_on_parser] followed by [reduce(lambda x, y: x + y, ...)]. *)
Fixpoint reflect_configs (c : ParserConfig) (samples : list SampleURL) (prefix_nm : string)
  : string + list ParserConfig :=
  match samples with
  | [] => inr []
  | s :: rest =>
      match parse c (s_raw_content s) with
      | inl e => inl e
      | inr parsed =>
          match reflect_call s c parsed with
          | inl e => inl e
          | inr pp =>
              match reflect_configs c rest prefix_nm with
              | inl e => inl e
              | inr cs => inr (mkParserConfig pp prefix_nm :: cs)
              end
          end
      end
  end.

Definition reflect_on_parser (c : ParserConfig) (samples : list SampleURL) (prefix_nm : string)
  : string + ParserConfig :=
  match reflect_configs c samples prefix_nm with
  | inl e => inl e
  | inr [] => inl "reduce() of empty iterable with no initial value"
  | inr (c0 :: cs) => inr (List.fold_left pc_add cs c0)
  end.

(** One pass of the [try] body in [generate_parser] with [n] examples:
    [inl msg] is an exception, [inr (Some c)] sets [success], and
    [inr None] is a repaired parser that passed validation without
    setting [success] (the loop goes round with the same [n]). *)
Definition attempt (up : URLPrefix) (n : nat) : string + option ParserConfig :=
  match generate_call (firstn n (sample_urls up)) with
  | inl e => inl e
  | inr pp =>
      let c := mkParserConfig pp (up_prefix up) in
      match validate_parser c (sample_urls up) with
      | None => inr (Some c)
      | Some (s, msg) =>
          let repaired :=
            match error_prompt config with
            | Some _ =>
                match repair_call s c msg with
                | inl e => inl e
                | inr pp' =>
                    inr (validate_parser (mkParserConfig pp' (prefix_name c)) (sample_urls up))
                end
            | None => inr (Some (s, msg))
            end in
          match repaired with
          | inl e => inl e
          | inr (Some _) => inl (String.append "Failed to generate parser with error: " msg)
          | inr None => inr None
          end
      end
  end.

(** [while num_examples > 0 and not success: ...], run for at most
    [fuel] passes ([None] when the fuel runs out).  [inr None] is the
    exit with [num_examples = 0]. *)
Fixpoint generation_loop (up : URLPrefix) (fuel n : nat)
  : option (string + option ParserConfig) :=
  match fuel with
  | O => None
  | S fuel' =>
      match n with
      | O => Some (inr None)
      | S n' =>
          match attempt up n with
          | inr (Some c) => Some (inr (Some c))
          | inr None => generation_loop up fuel' n
          | inl e =>
              if Py.contains context_window_phrase e
              then generation_loop up fuel' n'
              else Some (inl e)
          end
      end
  end.

(** [ParserGenerator.generate_parser]: [inl] is the exception raised to
    the caller. *)
Definition generate_parser (fuel : nat) (up : URLPrefix) : option (string + ParserConfig) :=
  match generation_loop up fuel (length (sample_urls up)) with
  | None => None
  | Some (inl e) => Some (inl e)
  | Some (inr None) => Some (inl "Failed to generate parser")
  | Some (inr (Some c)) =>
      Some (match reflection_prompt config with
            | Some _ => reflect_on_parser c (sample_urls up) (up_prefix up)
            | None => inr c
            end)
  end.

End Synthesis.

(* ================================================================== *)
(** ** workers/parser_generation_worker.py *)

(** The prefix records of the store, with the log of every [save] of a
    prefix in order. *)
Record GenState := mkGenState {
  gprefixes : gmap string URLPrefix;
  gsaves : list URLPrefix
}.

Definition gsave (p : URLPrefix) (g : GenState) : GenState :=
  mkGenState (<[up_prefix p := p]> (gprefixes g)) (app (gsaves g) [p]).

Definition with_status (s : option string) (p : URLPrefix) : URLPrefix :=
  mkURLPrefix (up_prefix p) (sample_urls p) (validation_urls p) (parser_config p) s.

Definition with_config (c : ParserConfig) (p : URLPrefix) : URLPrefix :=
  mkURLPrefix (up_prefix p) (sample_urls p) (validation_urls p) (Some c) (processing_status p).

Definition status_is (s : string) (p : URLPrefix) : bool :=
  match processing_status p with Some t => String.eqb t s | None => false end.

Inductive JobStatus := JSkipped | JSuccess | JError.

Section GenerationWorker.

(** [generate_parser_for_url_prefix]: loading the production generator
    config and [ParserGenerator.generate_parser]; [inl] when it raises. *)
Variable generate_for_prefix : URLPrefix -> string + ParserConfig.

(** From "Mark as in progress and save" to the end of the job. *)
Definition run_job (u : URLPrefix) (g : GenState) : JobStatus * GenState :=
  let u1 := with_status (Some "in_progress") u in
  let g1 := gsave u1 g in
  match generate_for_prefix u1 with
  | inr c => (JSuccess, gsave (with_status (Some "completed") (with_config c u1)) g1)
  | inl _ => (JError, gsave (with_status (Some "failed") u1) g1)
  end.

(** [ParserGenerationWorker.reset_failed_url_prefix] *)
Definition reset_failed_url_prefix (u : URLPrefix) (g : GenState) : URLPrefix * GenState :=
  let u' := with_status None u in (u', gsave u' g).

(** [ParserGenerationWorker.process_url_prefix_job] *)
Definition process_url_prefix_job (u : URLPrefix) (g : GenState) : JobStatus * GenState :=
  match gprefixes g !! up_prefix u with
  | Some e =>
      if status_is "in_progress" e then (JSkipped, g)
      else if status_is "failed" e then
        let '(e', g') := reset_failed_url_prefix e g in run_job e' g'
      else run_job u g
  | None => run_job u g
  end.

End GenerationWorker.

(* ================================================================== *)
(** ** redis_queue.py

    A queue is a list whose head is the Redis list's left end.  The
    JSON round trip of the serialisation ([orjson.dumps] of [model_dump],
    then the model class applied to the loaded fields) returns an equal
    model and is left out. *)

Module RedisQueue.

(** [add_to_queue]: [LPUSH] *)
Definition add_to_queue {A} (x : A) (q : list A) : list A := x :: q.

(** [get_from_queue]: [RPOP], [None] on an empty queue. *)
Definition get_from_queue {A} (q : list A) : option A * list A :=
  match List.rev q with
  | [] => (None, q)
  | x :: r => (Some x, List.rev r)
  end.

(** [peek_from_queue]: [LINDEX queue -1] *)
Definition peek_from_queue {A} (q : list A) : option A :=
  match List.rev q with [] => None | x :: _ => Some x end.

(** [queue_length]: [LLEN] *)
Definition queue_length {A} (q : list A) : nat := length q.

(** [clear_queue]: [DEL] *)
Definition clear_queue {A} (q : list A) : list A := [].

(** [k] successive [get_from_queue] calls (as the worker loops make
    them), collecting the items returned. *)
Fixpoint drain {A} (k : nat) (q : list A) : list A * list A :=
  match k with
  | O => ([], q)
  | S k' =>
      match get_from_queue q with
      | (Some x, q') => let '(xs, q'') := drain k' q' in (x :: xs, q'')
      | (None, q') => ([], q')
      end
  end.

End RedisQueue.

(* ================================================================== *)
(** ** db.py: the production config key *)

(** [get_production_config]: an unset or empty value reads as [None]. *)
Definition get_production_config (stored : option string) : option string :=
  match stored with
  | Some s => if String.eqb s "" then None else Some s
  | None => None
  end.

(** [set_production_config] *)
Definition set_production_config (config_name : string) : option string := Some config_name.

(* ================================================================== *)
(** ** workers/parser_generation_worker.py: loading the generator config *)

Section GeneratorForPrefix.

(** [ParserGeneratorConfig.from_config] (reading the YAML file) and
    [ParserGenerator(cfg).generate_parser(...).config]; [inl] when they
    raise. *)
Variable from_config : string -> string + ParserGeneratorConfig.
Variable generate_with : ParserGeneratorConfig -> URLPrefix -> string + ParserConfig.

(** [get_production_generator_config] *)
Definition get_production_generator_config (stored : option string)
  : string + ParserGeneratorConfig :=
  match get_production_config stored with
  | None => inl "No production config set"
  | Some name => from_config name
  end.

(** [generate_parser_for_url_prefix]: the config it sets on the prefix. *)
Definition generate_parser_for_url_prefix (stored : option string) (up : URLPrefix)
  : string + ParserConfig :=
  match get_production_generator_config stored with
  | inl e => inl e
  | inr cfg => generate_with cfg up
  end.

End GeneratorForPrefix.

(* ================================================================== *)
(** ** workers/parsing_worker.py: [extract_links_from_html] *)

(** Order-preserving removal of duplicates with a [seen] set. *)
Fixpoint dedupe (seen : gset string) (l : list string) : list string :=
  match l with
  | [] => []
  | x :: r =>
      if bool_decide (x ∈ seen) then dedupe seen r
      else x :: dedupe ({[x]} ∪ seen) r
  end.

Section ExtractLinks.

Variable parse_qs : string -> list (string * list string).
Variable urlencode : list (string * string) -> string.
(** The [href] values of [soup.find_all('a', href=True)] in document
    order ([html.parser]), and [urllib.parse.urljoin] ([inl] when it
    raises). *)
Variable anchor_hrefs : string -> list string.
Variable urljoin : string -> string -> string + string.

(** The body of the loop over the anchors: [Some] is a link appended. *)
Definition link_of_href (base_url target_prefix href : string) : option string :=
  if String.eqb href "" then None else
  match urljoin base_url href with
  | inl _ => None
  | inr absolute_url =>
      let absolute_url :=
        if Py.contains "#" absolute_url
        then List.hd "" (Py.split "#"%char absolute_url) else absolute_url in
      let normalized_url := normalize_url parse_qs urlencode absolute_url in
      match Url.urlparse normalized_url with
      | inl _ => None
      | inr parsed_url =>
          if negb (name_in (Url.scheme parsed_url) ["http"; "https"]) then None
          else if String.eqb normalized_url (normalize_url parse_qs urlencode base_url) then None
          else if Py.startswith target_prefix normalized_url then Some normalized_url
          else None
      end
  end.

(** [ParsingWorker.extract_links_from_html] *)
Definition extract_links_from_html (html_content base_url target_prefix : string)
  : list string :=
  dedupe ∅ (omap (link_of_href base_url target_prefix) (anchor_hrefs html_content)).

End ExtractLinks.

(* ================================================================== *)
(** ** data_models.py: [URLPrefixWithUrls] and [SampleURL.evaluate] *)

Record URLPrefixWithUrls := mkURLPrefixWithUrls {
  url_prefix : URLPrefix;
  all_urls : list string;
  url_count : nat
}.

(** [URLPrefixWithUrls.from_url_prefix]; [sorted(list(set(...)))] on
    strings is the code-point order, [String.le]. *)
Definition from_url_prefix (st : Store) (up : URLPrefix) : URLPrefixWithUrls :=
  let all := app (List.map s_url (sample_urls up))
               (app (match validation_urls up with
                     | Some vs => List.map s_url vs
                     | None => []
                     end)
                    (List.map url (find_urls_with_prefix st (up_prefix up)))) in
  let unique_urls := merge_sort String.le (elements (list_to_set all : gset string)) in
  mkURLPrefixWithUrls up unique_urls (length unique_urls).

(** [EvaluationResult]; the float [levenshtein_distance_norm] is kept as
    the two operands of its division. *)
Record EvaluationResult := mkEvaluationResult {
  distance_num : nat;
  distance_den : nat;
  exact_match : bool;
  missing_content : bool;
  extra_content : bool;
  e_config_name : string;
  e_domain : string;
  e_url : string;
  expected_content : string;
  e_parsed_content : string
}.

Section Evaluate.

(** [Levenshtein.distance] *)
Variable distance : string -> string -> nat.

(** [SampleURL.evaluate]; [inl] is the exception raised. *)
Definition evaluate (self : SampleURL) (parsed : string) (config_name domain : string)
  : string + EvaluationResult :=
  match s_label self with
  | None => inl "'NoneType' object has no attribute 'content'"
  | Some l =>
      if (String.length l =? 0)%nat then inl "division by zero"
      else inr (mkEvaluationResult (distance l parsed) (String.length l)
                  (String.eqb l parsed) (negb (Py.contains l parsed))
                  (negb (Py.contains parsed l)) config_name domain (s_url self) l parsed)
  end.

End Evaluate.

(* ================================================================== *)
(** ** Proof support for the document tree *)

(** Structural induction over the nested [node] type. *)
Fixpoint node_ind' (P : node -> Prop) (HT : forall s, P (Text s))
    (HE : forall t a kids, Forall P kids -> P (Elem t a kids)) (n : node) : P n :=
  match n with
  | Text s => HT s
  | Elem t a kids =>
      HE t a kids ((fix go (l : list node) : Forall P l :=
                      match l with
                      | [] => @List.Forall_nil _ P
                      | k :: l' => @List.Forall_cons _ P k l' (node_ind' P HT HE k) (go l')
                      end) kids)
  end.

(** [m] holds for some tag of the tree, its root included. *)
Fixpoint tag_matches (m : node -> bool) (n : node) : bool :=
  match n with
  | Text _ => false
  | Elem _ _ kids => m n || existsb (tag_matches m) kids
  end.

(** The children of the document node. *)
Definition doc_kids (soup : node) : list node :=
  match soup with Elem _ _ k => k | Text _ => [] end.

(** [m] looks at a tag itself, not at its children. *)
Definition tag_local (m : node -> bool) : Prop :=
  (forall t a k k', m (Elem t a k) = m (Elem t a k')) /\ (forall s, m (Text s) = false).

(** The stripped, nonempty strings that [get_text] joins. *)
Definition visible (l : list string) : list string :=
  List.filter (fun s => negb (String.eqb s "")) (List.map Py.strip l).

(** The filter of [find_urls_with_prefix]. *)
Definition has_prefix (p : string) (u : URL) : bool :=
  match prefix u with Some q => String.eqb q p | None => false end.

(** Every prefix record is stored under its own prefix (as [save] keys it). *)
Definition gen_consistent (g : GenState) : Prop :=
  forall k e, gprefixes g !! k = Some e -> up_prefix e = k.

(* ================================================================== *)
(** ** Concrete inputs used by the examples below *)

Definition fail_fetch (_ : string) : string + string := inl "404 Client Error".
Definition no_parse (_ : ParserConfig) (_ : string) : string + string := inl "no parse".
Definition no_links (_ _ _ : string) : list string := [].
Definition ok_fetch (_ : string) : string + string := inr "<html><body><p>x</p></body></html>".

(** A store where prefix [https://a.com/p] exists without a config and
    already owns 20 stored URL rows. *)
Definition cap_prefix : URLPrefix := mkURLPrefix "https://a.com/p" [] (Some []) None None.

Definition cap_urls : gmap string URL :=
  List.fold_left (fun m i =>
      let u := String.append "https://a.com/p/" (String (Ascii.ascii_of_nat (65 + i)) EmptyString) in
      <[u := mkURL u (Some "https://a.com/p") None (Some "t")]> m)
    (List.seq 0 20) ∅.

Definition cap_store : Store :=
  mkStore cap_urls (<["https://a.com/p" := cap_prefix]> ∅) [] [].

(** Five samples for the synthesis examples, and a provider that
    overflows on any prompt with three samples or more. *)
Definition five_samples : list SampleURL :=
  List.map (fun i => mkSampleURL
              (String.append "https://a.com/p/" (String (Ascii.ascii_of_nat (65 + i)) EmptyString))
              (Some "<html><body><main>t</main></body></html>") None)
    (List.seq 0 5).

Definition five_prefix : URLPrefix := mkURLPrefix "https://a.com/p" five_samples (Some []) None None.

Definition main_params : ParserParameters := mkParserParameters ["main"] [] [] [].

Definition overflow_error : string :=
  String.append "Error code: 400 - " context_window_phrase.

Definition small_context_call (ss : list SampleURL) : string + ParserParameters :=
  if (3 <=? length ss)%nat then inl overflow_error else inr main_params.

Definition always_overflow_call (_ : list SampleURL) : string + ParserParameters :=
  inl overflow_error.

Definition no_repair (_ : SampleURL) (_ : ParserConfig) (_ : string) : string + ParserParameters :=
  inl "no repair".

Definition parse_ok (_ : ParserConfig) (_ : option string) : string + string := inr "t".

Definition plain_generator_config : ParserGeneratorConfig :=
  mkParserGeneratorConfig "base" "model" "minimal" "instructions" "{html_content}" None None.

(** A page with a paragraph, a script and a span, and parameters that
    drop the script and unwrap the span. *)
Definition small_soup : node :=
  Elem "html" [] [Elem "body" [] [Elem "p" [] [Text "a"]; Elem "script" [] [Text "x"];
                                  Elem "span" [] [Text "b"]]].

Definition drop_script_unwrap_span : ParserParameters :=
  mkParserParameters [] [] ["script"] ["span"].

(** A store whose only prefix has a parser config, one whose only prefix
    has none, and an item for a page below that prefix. *)
Definition cfg_prefix : URLPrefix :=
  mkURLPrefix "https://a.com/p" [] (Some []) (Some (mkParserConfig main_params "https://a.com/p")) None.

Definition cfg_store : Store := mkStore ∅ (<["https://a.com/p" := cfg_prefix]> ∅) [] [].

Definition nocfg_store : Store := mkStore ∅ (<["https://a.com/p" := cap_prefix]> ∅) [] [].

Definition page_item : URLQueueItem :=
  mkURLQueueItem (mkURL "https://a.com/p/x" None None None) 0 0.

Definition text_parse (_ : ParserConfig) (_ : string) : string + string := inr "t".

Definition one_link (_ _ _ : string) : list string := ["https://a.com/p/y"].

(** A provider that overflows on three samples or more and is rate
    limited below. *)
Definition rate_limit_error : string := "Error code: 429 - rate limit".

Definition hard_error_call (ss : list SampleURL) : string + ParserParameters :=
  if (3 <=? length ss)%nat then inl overflow_error else inl rate_limit_error.

(** A prefix stored as [failed], and the record dequeued for it. *)
Definition failed_stored : URLPrefix :=
  mkURLPrefix "https://a.com/p" five_samples (Some []) None (Some "failed").

Definition job_dequeued : URLPrefix := mkURLPrefix "https://a.com/p" [] (Some []) None None.

Definition job_state : GenState := mkGenState (<["https://a.com/p" := failed_stored]> ∅) [].

Definition hello_sample : SampleURL := mkSampleURL "https://a.com/p/A" None (Some "Hello").

(** A query parser, and two encoders that differ only on the empty list. *)
Definition two_pairs_qs (_ : string) : list (string * list string) := [("b", ["2"]); ("a", ["1"])].

Definition keys_encode (qp : list (string * string)) : string :=
  List.fold_right (fun kv acc => String.append (fst kv) acc) "" qp.

Definition keys_encode_or_blank (qp : list (string * string)) : string :=
  match qp with [] => "blank" | _ => keys_encode qp end.

(* ================================================================== *)
(** * Properties *)

Example py_split_ex : Py.split "/"%char "https://a.com/x" = ["https:"; ""; "a.com"; "x"].
Proof. reflexivity. Qed.
Example py_replace_ex : Py.replace ":443" "" "h:44312" = "h12".
Proof. reflexivity. Qed.
Example py_strip_ex : Py.strip "  a b
 " = "a b".
Proof. reflexivity. Qed.


Lemma sel_set_union_list (a b : list string) :
  sel_set (set_union_list a b) = sel_set a ∪ sel_set b.
Proof.
  unfold sel_set, set_union_list. apply set_eq. intros x.
  rewrite elem_of_list_to_set, elem_of_elements. done.
Qed.

Lemma pp_add_sets (a b : ParserParameters) :
  sel_set (root (pp_add a b)) = sel_set (root a) ∪ sel_set (root b) /\
  sel_set (keep (pp_add a b)) = sel_set (keep a) ∪ sel_set (keep b) /\
  sel_set (drop (pp_add a b)) = sel_set (drop a) ∪ sel_set (drop b) /\
  sel_set (unwrap (pp_add a b)) = sel_set (unwrap a) ∪ sel_set (unwrap b).
Proof. unfold pp_add; simpl; rewrite !sel_set_union_list; done. Qed.

(** C1: for configurations of one prefix, the merge [+] is associative,
    commutative and idempotent up to set equality of the four selector
    fields (and equality of the prefix name). *)
Theorem config_merge_aci (a b c : ParserConfig) :
  prefix_name a = prefix_name b -> prefix_name b = prefix_name c ->
  pc_equiv (pc_add (pc_add a b) c) (pc_add a (pc_add b c)) /\
  pc_equiv (pc_add a b) (pc_add b a) /\
  pc_equiv (pc_add a a) a.
Proof.
  intros Hab Hbc. unfold pc_equiv, pp_equiv, pc_add; simpl.
  pose proof (pp_add_sets (pp_add (parameters a) (parameters b)) (parameters c)) as H1.
  pose proof (pp_add_sets (parameters a) (pp_add (parameters b) (parameters c))) as H2.
  pose proof (pp_add_sets (parameters a) (parameters b)) as H3.
  pose proof (pp_add_sets (parameters b) (parameters c)) as H4.
  pose proof (pp_add_sets (parameters b) (parameters a)) as H5.
  pose proof (pp_add_sets (parameters a) (parameters a)) as H6.
  destruct H1 as (?&?&?&?), H2 as (?&?&?&?), H3 as (?&?&?&?), H4 as (?&?&?&?),
    H5 as (?&?&?&?), H6 as (?&?&?&?).
  repeat split; try congruence; set_solver.
Qed.

Lemma config_merge_aci_witness :
  let a := mkParserConfig (mkParserParameters ["main"] [] ["script"] []) "https://a.com" in
  let b := mkParserConfig (mkParserParameters ["article"] ["p"] [] ["span"]) "https://a.com" in
  let c := mkParserConfig (mkParserParameters ["main"] [] ["nav"] []) "https://a.com" in
  prefix_name a = prefix_name b /\ prefix_name b = prefix_name c /\
  pc_equiv (pc_add (pc_add a b) c) (pc_add a (pc_add b c)) /\
  pc_equiv (pc_add a b) (pc_add b a) /\ pc_equiv (pc_add a a) a.
Proof.
  intros a b c. split; [reflexivity | split; [reflexivity |]].
  apply (config_merge_aci a b c); reflexivity.
Defined.

(** C2, counterexample: the value [PAUSED] is rejected. *)
Lemma system_state_paused_rejected :
  exists msg, set_system_state None "PAUSED" = inl msg.
Proof. eexists. reflexivity. Qed.

(** C2 (amended): the flag accepts exactly [RUNNING] and [PAUSE]; any
    other string is rejected with an error; after a successful set the
    flag reads back the value set; an unset flag reads [RUNNING]. *)
Theorem system_state_values (stored : option string) (s : string) :
  (forall v, set_system_state stored s = inr v ->
     (s = "RUNNING" \/ s = "PAUSE") /\ get_system_state v = s) /\
  ((s = "RUNNING" \/ s = "PAUSE") -> set_system_state stored s = inr (Some s)) /\
  ((s <> "RUNNING" /\ s <> "PAUSE") -> exists msg, set_system_state stored s = inl msg) /\
  get_system_state None = "RUNNING".
Proof.
  split; [| split; [| split]]; unfold set_system_state; simpl.
  - intros v Hv.
    destruct (String.eqb_spec s "PAUSE") as [->|Hp]; [inversion Hv; subst; auto |].
    destruct (String.eqb_spec s "RUNNING") as [->|Hr]; [inversion Hv; subst; auto |].
    discriminate.
  - intros [-> | ->]; reflexivity.
  - intros [Hr Hp].
    destruct (String.eqb_spec s "PAUSE"); [congruence |].
    destruct (String.eqb_spec s "RUNNING"); [congruence |]. eauto.
  - reflexivity.
Qed.

(** C5: on the markup
    [<html><body><nav>X</nav><main><p>Hello</p><script>bad</script></main></body></html>]
    with [root=["main"]], [drop=["script"]] and empty [keep] and [unwrap],
    [Parser.parse] returns exactly ["Hello"]. *)
Theorem parse_main_drop_script :
  Parser_parse
    (mkParserConfig (mkParserParameters ["main"] [] ["script"] []) "https://example.com")
    "<html><body><nav>X</nav><main><p>Hello</p><script>bad</script></main></body></html>"
  = Some "Hello".
Proof. vm_compute. reflexivity. Qed.

(** C10: when the root selectors match no tag, the root restriction
    leaves the document unchanged; likewise the keep restriction when the
    keep selectors match no tag. *)
Theorem restrict_no_match_identity (pp : ParserParameters) (soup : node) :
  (select_all (root pp) soup = [] -> root_step pp soup = soup) /\
  (select_all (keep pp) soup = [] -> keep_step pp soup = soup).
Proof.
  unfold root_step, keep_step, restrict_step. split; intros H.
  - destruct (root pp) as [|sel sels]; [reflexivity |]. rewrite H. reflexivity.
  - destruct (keep pp) as [|sel sels]; [reflexivity |]. rewrite H. reflexivity.
Qed.

Lemma restrict_no_match_identity_witness :
  let pp := mkParserParameters ["article"] ["section"] [] [] in
  let soup := Elem "[document]" [] [Elem "html" [] [Elem "body" []
                [Elem "nav" [] [Text "X"]; Elem "main" [] [Text "Hello"]]]] in
  select_all (root pp) soup = [] /\ select_all (keep pp) soup = [] /\
  root_step pp soup = soup /\ keep_step pp soup = soup.
Proof.
  intros pp soup.
  assert (Hr : select_all (root pp) soup = []) by reflexivity.
  assert (Hk : select_all (keep pp) soup = []) by reflexivity.
  pose proof (restrict_no_match_identity pp soup) as [H1 H2].
  split; [exact Hr | split; [exact Hk | split; [exact (H1 Hr) | exact (H2 Hk)]]].
Defined.


(** C9: an item whose scheduled time is still in the future is pushed
    back on the queue as it is (same URL, same
    [process_from_unix_timestamp], same [times_queued]), nothing else
    changes, and the result is [deferred]. *)
Theorem deferred_item_unchanged load_raw_html parse extract_links_from_html
    (now : Z) (qi : URLQueueItem) (st : Store) :
  (now < process_from_unix_timestamp qi)%Z ->
  process_url_queue_item load_raw_html parse extract_links_from_html now qi st
  = (Deferred, push_url qi st).
Proof.
  intros Hlt. unfold process_url_queue_item.
  apply Z.ltb_lt in Hlt. rewrite Hlt. reflexivity.
Qed.

Lemma deferred_item_unchanged_witness :
  let qi := mkURLQueueItem (mkURL "https://a.com/p/x" None None None) 100 2 in
  let st := mkStore ∅ ∅ [] [] in
  (0 < process_from_unix_timestamp qi)%Z /\
  process_url_queue_item fail_fetch no_parse no_links 0 qi st = (Deferred, push_url qi st).
Proof.
  intros qi st. split; [reflexivity |].
  apply deferred_item_unchanged. reflexivity.
Defined.

(** C6, counterexample: an item for a prefix that already owns 20 URL
    rows, dequeued before its scheduled time, is deferred and pushed back
    on the queue, not dropped. *)
Lemma cap_not_dropped_when_not_due :
  let qi := mkURLQueueItem (mkURL "https://a.com/p/Z" None None None) 100 1 in
  find_prefix_for_url (prefixes cap_store) "https://a.com/p/Z" = Some cap_prefix /\
  (20 <= length (find_urls_with_prefix cap_store "https://a.com/p"))%nat /\
  process_url_queue_item fail_fetch no_parse no_links 50 qi cap_store
  = (Deferred, push_url qi cap_store).
Proof. vm_compute. split; [reflexivity | split; [lia | reflexivity]]. Qed.

(** C6 (amended): a dequeued item that is due
    ([now >= process_from_unix_timestamp]) and whose URL resolves to a
    prefix that already owns at least 20 stored URL rows yields
    [dropped], and the store and both queues are left as they were: no
    URL row is written and the item is not re-enqueued. *)
Theorem cap_drops_due_item load_raw_html parse extract_links_from_html
    (now : Z) (qi : URLQueueItem) (st : Store) (p : URLPrefix) :
  (process_from_unix_timestamp qi <= now)%Z ->
  find_prefix_for_url (prefixes st) (url (q_url qi)) = Some p ->
  (20 <= length (find_urls_with_prefix st (up_prefix p)))%nat ->
  process_url_queue_item load_raw_html parse extract_links_from_html now qi st
  = (Dropped, st).
Proof.
  intros Hdue Hp Hcap. unfold process_url_queue_item.
  replace (now <? process_from_unix_timestamp qi)%Z with false
    by (symmetry; apply Z.ltb_ge; lia).
  rewrite Hp. apply Nat.leb_le in Hcap. rewrite Hcap. reflexivity.
Qed.

Lemma cap_drops_due_item_witness :
  let qi := mkURLQueueItem (mkURL "https://a.com/p/Z" None None None) 10 1 in
  process_url_queue_item ok_fetch no_parse no_links 50 qi cap_store = (Dropped, cap_store).
Proof.
  intros qi. apply (cap_drops_due_item ok_fetch no_parse no_links 50 qi cap_store cap_prefix).
  - simpl. lia.
  - vm_compute. reflexivity.
  - vm_compute. lia.
Defined.

(** C3, counterexample: on the path without a prefix, a failed fetch
    ends in [error] and the item is not put back on the queue. *)
Lemma no_prefix_fetch_error_discards :
  let qi := mkURLQueueItem (mkURL "https://b.com/x/y" None None None) 0 0 in
  let st := mkStore ∅ ∅ [] [] in
  find_prefix_for_url (prefixes st) "https://b.com/x/y" = None /\
  process_url_queue_item fail_fetch no_parse no_links 5 qi st = (Error, st) /\
  url_queue (snd (process_url_queue_item fail_fetch no_parse no_links 5 qi st)) = [].
Proof. vm_compute. split; [reflexivity | split; reflexivity]. Qed.

(** C3 (amended): for a due item whose URL has no prefix, or whose
    prefix has no config (and fewer than 20 URL rows), a fetch failure
    yields [error] with the store and queues unchanged (the item is
    discarded); only a successful fetch re-enqueues the item, with
    [process_from_unix_timestamp = now + 30] and [times_queued + 1]. *)
Theorem no_prefix_path_fetch load_raw_html parse extract_links_from_html
    (now : Z) (qi : URLQueueItem) (st : Store) :
  (process_from_unix_timestamp qi <= now)%Z ->
  match find_prefix_for_url (prefixes st) (url (q_url qi)) with
  | None => True
  | Some p => parser_config p = None /\
              (length (find_urls_with_prefix st (up_prefix p)) < 20)%nat
  end ->
  (forall e, load_raw_html (url (q_url qi)) = inl e ->
     process_url_queue_item load_raw_html parse extract_links_from_html now qi st
     = (Error, st)) /\
  (forall raw, load_raw_html (url (q_url qi)) = inr raw ->
     exists st', process_url_queue_item load_raw_html parse extract_links_from_html now qi st
     = (Requeued, push_url (mkURLQueueItem (q_url qi) (now + 30)
                              (times_queued qi + 1)) st')).
Proof.
  intros Hdue Hnp. unfold process_url_queue_item.
  replace (now <? process_from_unix_timestamp qi)%Z with false
    by (symmetry; apply Z.ltb_ge; lia).
  assert (Hwc : forall r,
    process_without_config load_raw_html now qi st = r ->
    (forall e, load_raw_html (url (q_url qi)) = inl e -> r = (Error, st)) /\
    (forall raw, load_raw_html (url (q_url qi)) = inr raw ->
       exists st', r = (Requeued, push_url (mkURLQueueItem (q_url qi) (now + 30)
                                              (times_queued qi + 1)) st'))).
  { intros r <-. unfold process_without_config. split.
    - intros e He. rewrite He. reflexivity.
    - intros raw Hr. rewrite Hr.
      destruct (prefixes st !! get_deepest_prefix (url (q_url qi))); eexists; reflexivity. }
  destruct (find_prefix_for_url (prefixes st) (url (q_url qi))) as [p|].
  - destruct Hnp as [Hcfg Hlt].
    replace ((20 <=? length (find_urls_with_prefix st (up_prefix p))))%nat with false
      by (symmetry; apply Nat.leb_gt; lia).
    rewrite Hcfg. apply Hwc. reflexivity.
  - apply Hwc. reflexivity.
Qed.

Lemma no_prefix_path_fetch_witness :
  let qi := mkURLQueueItem (mkURL "https://b.com/x/y" None None None) 0 0 in
  let st := mkStore ∅ ∅ [] [] in
  process_url_queue_item fail_fetch no_parse no_links 5 qi st = (Error, st) /\
  exists st', process_url_queue_item ok_fetch no_parse no_links 5 qi st
     = (Requeued, push_url (mkURLQueueItem (q_url qi) 35 1) st').
Proof.
  intros qi st. split.
  - destruct (no_prefix_path_fetch fail_fetch no_parse no_links 5 qi st) as [H _].
    + simpl. lia.
    + vm_compute. exact I.
    + apply (H "404 Client Error"). reflexivity.
  - destruct (no_prefix_path_fetch ok_fetch no_parse no_links 5 qi st) as [_ H].
    + simpl. lia.
    + vm_compute. exact I.
    + apply (H "<html><body><p>x</p></body></html>"). reflexivity.
Defined.

Section SynthesisProofs.

Variable config : ParserGeneratorConfig.
Variable generate_call : list SampleURL -> string + ParserParameters.
Variable repair_call : SampleURL -> ParserConfig -> string -> string + ParserParameters.
Variable reflect_call : SampleURL -> ParserConfig -> string -> string + ParserParameters.
Variable parse : ParserConfig -> option string -> string + string.

Lemma attempt_raises (up : URLPrefix) (k : nat) (m : string) :
  generate_call (firstn k (sample_urls up)) = inl m -> attempt config generate_call repair_call parse up k = inl m.
Proof. intros H. unfold attempt. rewrite H. reflexivity. Qed.

Lemma attempt_accepts (up : URLPrefix) (k : nat) (pp : ParserParameters) :
  generate_call (firstn k (sample_urls up)) = inr pp ->
  validate_parser parse (mkParserConfig pp (up_prefix up)) (sample_urls up) = None ->
  attempt config generate_call repair_call parse up k = inr (Some (mkParserConfig pp (up_prefix up))).
Proof. intros H Hv. unfold attempt. rewrite H, Hv. reflexivity. Qed.

Lemma loop_overflow_step (up : URLPrefix) (fuel n : nat) (m : string) :
  generate_call (firstn (S n) (sample_urls up)) = inl m ->
  Py.contains context_window_phrase m = true ->
  generation_loop config generate_call repair_call parse up (S fuel) (S n) = generation_loop config generate_call repair_call parse up fuel n.
Proof.
  intros H Hc. cbn [generation_loop].
  rewrite (attempt_raises up (S n) m H), Hc. reflexivity.
Qed.

(** With every attempt size overflowing, the loop leaves with [n = 0]. *)
Lemma loop_all_overflow (up : URLPrefix) (n fuel : nat) :
  (n < fuel)%nat ->
  (forall k, (1 <= k <= n)%nat -> exists m,
     generate_call (firstn k (sample_urls up)) = inl m /\
     Py.contains context_window_phrase m = true) ->
  generation_loop config generate_call repair_call parse up fuel n = Some (inr None).
Proof.
  revert fuel. induction n as [|n IH]; intros fuel Hf Hov.
  - destruct fuel as [|f]; [lia |]. reflexivity.
  - destruct fuel as [|f]; [lia |].
    destruct (Hov (S n) ltac:(lia)) as (m & Hm & Hc).
    rewrite (loop_overflow_step up f n m Hm Hc).
    apply IH; [lia |]. intros k Hk. apply Hov. lia.
Qed.

Lemma reflect_configs_ok (c : ParserConfig) (samples : list SampleURL) (pn : string) :
  validate_parser parse c samples = None ->
  (forall s parsed, In s samples -> exists q, reflect_call s c parsed = inr q) ->
  exists cs, reflect_configs reflect_call parse c samples pn = inr cs /\
             length cs = length samples.
Proof.
  induction samples as [|s rest IH]; intros Hv Hr.
  - exists []. split; reflexivity.
  - simpl in Hv. simpl.
    destruct (parse c (s_raw_content s)) as [e|parsed]; [discriminate |].
    destruct (Hr s parsed (or_introl eq_refl)) as [q Hq]. rewrite Hq.
    destruct IH as (cs & Hcs & Hlen); [exact Hv | intros s' p' Hin; apply Hr; right; exact Hin |].
    rewrite Hcs. exists (mkParserConfig q pn :: cs). simpl. split; [reflexivity | lia].
Qed.

End SynthesisProofs.

(** C4: with 5 samples, a provider that reports context overflow for the
    attempts with 5, 4 and 3 samples and answers the attempt built from
    [firstn 2] samples with a config that passes validation makes
    [generate_parser] return that config (the reflected merge of it when a
    reflection prompt is configured) and raise nothing, provided each
    reflection call answers; and whenever every size from the sample
    count down to 1 overflows, [generate_parser] raises
    ["Failed to generate parser"]. *)
Theorem generate_parser_adaptive_degradation config generate_call repair_call
    reflect_call parse :
  (forall (up : URLPrefix) (pp : ParserParameters) (fuel : nat),
     length (sample_urls up) = 5%nat ->
     (forall k, (k = 5 \/ k = 4 \/ k = 3)%nat -> exists m,
        generate_call (firstn k (sample_urls up)) = inl m /\
        Py.contains context_window_phrase m = true) ->
     generate_call (firstn 2 (sample_urls up)) = inr pp ->
     validate_parser parse (mkParserConfig pp (up_prefix up)) (sample_urls up) = None ->
     (4 <= fuel)%nat ->
     let c := mkParserConfig pp (up_prefix up) in
     (reflection_prompt config = None ->
        generate_parser config generate_call repair_call reflect_call parse fuel up
        = Some (inr c)) /\
     (forall r, reflection_prompt config = Some r ->
        (forall s parsed, In s (sample_urls up) -> exists q, reflect_call s c parsed = inr q) ->
        exists c', generate_parser config generate_call repair_call reflect_call parse fuel up
        = Some (inr c') /\
        reflect_on_parser reflect_call parse c (sample_urls up) (up_prefix up) = inr c')) /\
  (forall (up : URLPrefix) (fuel : nat),
     (length (sample_urls up) < fuel)%nat ->
     (forall k, (1 <= k <= length (sample_urls up))%nat -> exists m,
        generate_call (firstn k (sample_urls up)) = inl m /\
        Py.contains context_window_phrase m = true) ->
     generate_parser config generate_call repair_call reflect_call parse fuel up
     = Some (inl "Failed to generate parser")).
Proof.
  split.
  - intros up pp fuel Hlen Hov Hgen Hval Hfuel c.
    assert (Hloop : generation_loop config generate_call repair_call parse up fuel 5
                    = Some (inr (Some c))).
    { destruct fuel as [|[|[|[|f]]]]; try lia.
      destruct (Hov 5%nat ltac:(lia)) as (m5 & H5 & C5).
      destruct (Hov 4%nat ltac:(lia)) as (m4 & H4 & C4).
      destruct (Hov 3%nat ltac:(lia)) as (m3 & H3 & C3).
      rewrite (loop_overflow_step config generate_call repair_call parse up _ 4 m5 H5 C5).
      rewrite (loop_overflow_step config generate_call repair_call parse up _ 3 m4 H4 C4).
      rewrite (loop_overflow_step config generate_call repair_call parse up _ 2 m3 H3 C3).
      cbn [generation_loop].
      rewrite (attempt_accepts config generate_call repair_call parse up 2 pp Hgen Hval).
      reflexivity. }
    unfold generate_parser. rewrite Hlen, Hloop. split.
    + intros Hr. rewrite Hr. reflexivity.
    + intros r Hr Hrefl. rewrite Hr.
      destruct (reflect_configs_ok reflect_call parse c (sample_urls up) (up_prefix up) Hval Hrefl)
        as (cs & Hcs & Hcl).
      unfold reflect_on_parser. rewrite Hcs.
      destruct cs as [|c0 cs]; [simpl in Hcl; lia |].
      eexists. split; reflexivity.
  - intros up fuel Hf Hov. unfold generate_parser.
    rewrite (loop_all_overflow config generate_call repair_call parse up _ fuel Hf Hov).
    reflexivity.
Qed.

Lemma generate_parser_adaptive_degradation_witness :
  generate_parser plain_generator_config small_context_call no_repair no_repair parse_ok 4
    five_prefix = Some (inr (mkParserConfig main_params "https://a.com/p")) /\
  generate_parser plain_generator_config always_overflow_call no_repair no_repair parse_ok 6
    five_prefix = Some (inl "Failed to generate parser").
Proof.
  destruct (generate_parser_adaptive_degradation plain_generator_config small_context_call
              no_repair no_repair parse_ok) as [H1 _].
  destruct (generate_parser_adaptive_degradation plain_generator_config always_overflow_call
              no_repair no_repair parse_ok) as [_ H2].
  split.
  - destruct (H1 five_prefix main_params 4%nat) as [Hn _].
    + reflexivity.
    + intros k Hk. exists overflow_error.
      destruct Hk as [->|[->| ->]]; split; reflexivity.
    + reflexivity.
    + reflexivity.
    + lia.
    + apply Hn. reflexivity.
  - apply H2.
    + simpl. lia.
    + intros k Hk. exists overflow_error. split; reflexivity.
Defined.

(** C7 (code defect): [normalize_url] removes a single trailing slash, so
    a path ending in two slashes changes again on a second pass:
    ["https://example.com/a//"] normalises to ["https://example.com/a/"],
    which normalises to ["https://example.com/a"]. *)
Theorem normalize_url_twice_differs parse_qs urlencode :
  normalize_url parse_qs urlencode "https://example.com/a//" = "https://example.com/a/" /\
  normalize_url parse_qs urlencode (normalize_url parse_qs urlencode "https://example.com/a//")
    = "https://example.com/a".
Proof. split; reflexivity. Qed.

(** C8: a prefix stored with status [failed], when dequeued again, is
    saved first with status [None] and then with status [in_progress]
    before synthesis runs on that record; the job then saves it once more
    as [completed] (with the new config) or [failed]. *)
Theorem failed_prefix_recovery generate_for_prefix (u : URLPrefix) (g : GenState)
    (e : URLPrefix) :
  gprefixes g !! up_prefix u = Some e ->
  processing_status e = Some "failed" ->
  let e0 := with_status None e in
  let e1 := with_status (Some "in_progress") e0 in
  processing_status e0 = None /\ processing_status e1 = Some "in_progress" /\
  gsaves (snd (process_url_prefix_job generate_for_prefix u g))
  = app (gsaves g)
      [e0; e1;
       match generate_for_prefix e1 with
       | inr c => with_status (Some "completed") (with_config c e1)
       | inl _ => with_status (Some "failed") e1
       end].
Proof.
  intros He Hs e0 e1. split; [reflexivity | split; [reflexivity |]].
  unfold process_url_prefix_job. rewrite He.
  unfold status_is. rewrite Hs. simpl.
  unfold run_job. fold e0 e1.
  destruct (generate_for_prefix e1); simpl; rewrite <- !app_assoc; reflexivity.
Qed.

Lemma failed_prefix_recovery_witness :
  let stored := mkURLPrefix "https://a.com/p" five_samples (Some []) None (Some "failed") in
  let dequeued := mkURLPrefix "https://a.com/p" [] (Some []) None None in
  let g := mkGenState (<["https://a.com/p" := stored]> ∅) [] in
  List.map processing_status
    (gsaves (snd (process_url_prefix_job (fun _ => inl "boom") dequeued g)))
  = [None; Some "in_progress"; Some "failed"].
Proof.
  intros stored dequeued g.
  destruct (failed_prefix_recovery (fun _ => inl "boom") dequeued g stored) as (_ & _ & H).
  - reflexivity.
  - reflexivity.
  - rewrite H. reflexivity.
Defined.

Lemma system_state_values_witness :
  set_system_state None "PAUSE" = inr (Some "PAUSE") /\
  get_system_state (Some "PAUSE") = "PAUSE" /\
  (exists msg, set_system_state (Some "RUNNING") "STOPPED" = inl msg).
Proof.
  destruct (system_state_values None "PAUSE") as (H1 & H2 & _ & _).
  destruct (system_state_values (Some "RUNNING") "STOPPED") as (_ & _ & H3 & _).
  split; [apply H2; right; reflexivity |].
  split; [destruct (H1 (Some "PAUSE")) as [_ H]; [apply H2; right; reflexivity | exact H] |].
  apply H3. split; discriminate.
Defined.

(* ================================================================== *)
(** * Further properties of the code *)

Lemma sel_node_nil (m : node -> bool) (n : node) :
  forall p, tag_matches m n = false -> sel_node m p n = [].
Proof.
  induction n as [s|t a kids Hall] using node_ind'; intros p H; [reflexivity |].
  simpl in H. apply orb_false_iff in H as [Hm Hk].
  simpl. rewrite Hm. simpl. clear Hm. generalize 0%nat.
  induction Hall as [|k ks Hk1 Hks IH]; intros i; [reflexivity |].
  simpl in Hk. apply orb_false_iff in Hk as [H1 H2].
  rewrite Hk1 by exact H1. simpl. apply IH. exact H2.
Qed.

Lemma sel_kids_nil (m : node -> bool) (p : path) (kids : list node) (i : nat) :
  existsb (tag_matches m) kids = false ->
  (fix go (i : nat) (ks : list node) : list path :=
     match ks with
     | [] => []
     | k :: ks' => app (sel_node m (app p [i]) k) (go (S i) ks')
     end) i kids = [].
Proof.
  revert i. induction kids as [|k ks IH]; intros i H; [reflexivity |].
  simpl in H. apply orb_false_iff in H as [Hk Hks].
  rewrite sel_node_nil by exact Hk. simpl. apply IH. exact Hks.
Qed.

Lemma select_nil (m : node -> bool) (t : string) (a : list (string * string)) (kids : list node) :
  existsb (tag_matches m) kids = false -> select m (Elem t a kids) = [].
Proof.
  intros H. unfold select. cbn [sel_node]. rewrite (sel_kids_nil m [] kids 0 H).
  destruct (m (Elem t a kids)); reflexivity.
Qed.

Lemma decompose_removes (m : node -> bool) (n : node) :
  tag_local m -> forallb (fun x => negb (tag_matches m x)) (decompose_matching m n) = true.
Proof.
  intros [Hl Ht]. induction n as [s|t a kids Hall] using node_ind'; [reflexivity |].
  simpl. destruct (m (Elem t a kids)) eqn:E; [reflexivity |].
  simpl. rewrite (Hl t a _ kids), E. simpl. rewrite andb_true_r.
  apply negb_true_iff. clear E.
  induction Hall as [|k ks Hk Hks IH]; [reflexivity |].
  simpl. rewrite existsb_app. apply orb_false_iff. split.
  - apply not_true_iff_false. intros Hex. apply existsb_exists in Hex as (x & Hx & Hxm).
    apply forallb_forall with (x := x) in Hk; [| exact Hx]. rewrite Hxm in Hk. discriminate.
  - exact IH.
Qed.



Lemma existsb_concat_map_false {A} (tm : node -> bool) (f : A -> list node) (l : list A) :
  (forall x, In x l -> existsb tm (f x) = false) -> existsb tm (List.concat (List.map f l)) = false.
Proof.
  induction l as [|x l IH]; intros H; [reflexivity |].
  simpl. rewrite existsb_app, H by (left; reflexivity). apply IH. intros y Hy. apply H. right. exact Hy.
Qed.

Lemma existsb_false_in {A} (f : A -> bool) (l : list A) (x : A) :
  existsb f l = false -> In x l -> f x = false.
Proof.
  intros H Hx. apply not_true_iff_false. intros Hf.
  assert (existsb f l = true) by (apply existsb_exists; eauto). congruence.
Qed.

Lemma decompose_keeps_clean (m m' : node -> bool) (n : node) :
  tag_local m -> tag_matches m n = false ->
  existsb (tag_matches m) (decompose_matching m' n) = false.
Proof.
  intros [Hl Ht]. induction n as [s|t a kids Hall] using node_ind'; intros H; [reflexivity |].
  simpl. destruct (m' (Elem t a kids)); [reflexivity |].
  simpl in H |- *. apply orb_false_iff in H as [Hm Hk].
  rewrite (Hl t a _ kids), Hm. simpl. rewrite orb_false_r.
  apply existsb_concat_map_false. intros x Hx.
  rewrite List.Forall_forall in Hall. apply Hall; [exact Hx |].
  exact (existsb_false_in _ _ _ Hk Hx).
Qed.

Lemma unwrap_keeps_clean (m m' : node -> bool) (n : node) :
  tag_local m -> tag_matches m n = false ->
  existsb (tag_matches m) (unwrap_matching m' n) = false.
Proof.
  intros [Hl Ht]. induction n as [s|t a kids Hall] using node_ind'; intros H; [reflexivity |].
  simpl in H. apply orb_false_iff in H as [Hm Hk].
  assert (Hc : existsb (tag_matches m) (List.concat (List.map (unwrap_matching m') kids)) = false).
  { apply existsb_concat_map_false. intros x Hx.
    rewrite List.Forall_forall in Hall. apply Hall; [exact Hx |].
    exact (existsb_false_in _ _ _ Hk Hx). }
  simpl. destruct (m' (Elem t a kids)); [exact Hc |].
  simpl. rewrite (Hl t a _ kids), Hm, Hc. reflexivity.
Qed.

Lemma unwrap_removes (m : node -> bool) (n : node) :
  tag_local m -> existsb (tag_matches m) (unwrap_matching m n) = false.
Proof.
  intros [Hl Ht]. induction n as [s|t a kids Hall] using node_ind'; [reflexivity |].
  assert (Hc : existsb (tag_matches m) (List.concat (List.map (unwrap_matching m) kids)) = false).
  { apply existsb_concat_map_false. intros x Hx.
    rewrite List.Forall_forall in Hall. apply Hall. exact Hx. }
  simpl. destruct (m (Elem t a kids)) eqn:E; [exact Hc |].
  simpl. rewrite (Hl t a _ kids), E, Hc. reflexivity.
Qed.

Lemma decompose_removes' (m : node -> bool) (n : node) :
  tag_local m -> existsb (tag_matches m) (decompose_matching m n) = false.
Proof.
  intros Hloc. pose proof (decompose_removes m n Hloc) as H.
  apply not_true_iff_false. intros Hex. apply existsb_exists in Hex as (x & Hx & Hxm).
  apply forallb_forall with (x := x) in H; [| exact Hx]. rewrite Hxm in H. discriminate.
Qed.

Lemma prune_keeps_clean (m : node -> bool) (keepf : path -> bool) (n : node) :
  tag_local m -> forall p, tag_matches m n = false ->
  existsb (tag_matches m) (prune_node keepf p n) = false.
Proof.
  intros [Hl Ht]. induction n as [s|t a kids Hall] using node_ind'; intros p H; [reflexivity |].
  simpl in H. apply orb_false_iff in H as [Hm Hk].
  cbn [prune_node]. destruct (name_in t ["html"; "head"; "body"] || keepf p); [| reflexivity].
  cbn [existsb tag_matches]. rewrite (Hl t a _ kids), Hm. simpl. rewrite orb_false_r.
  generalize 0%nat. clear Hm.
  induction Hall as [|k ks Hk1 Hks IH]; intros i; [reflexivity |].
  simpl in Hk. apply orb_false_iff in Hk as [H1 H2].
  rewrite existsb_app, Hk1 by exact H1. apply IH. exact H2.
Qed.

Lemma on_children_keeps (m : node -> bool) (f : node -> list node) (soup : node) :
  (forall n, tag_matches m n = false -> existsb (tag_matches m) (f n) = false) ->
  existsb (tag_matches m) (doc_kids soup) = false ->
  existsb (tag_matches m) (doc_kids (on_children f soup)) = false.
Proof.
  intros Hf H. destruct soup as [t a kids|s]; [| exact H].
  simpl. apply existsb_concat_map_false. intros x Hx. apply Hf.
  exact (existsb_false_in _ _ _ H Hx).
Qed.

Lemma on_children_clears (m : node -> bool) (f : node -> list node) (soup : node) :
  (forall n, existsb (tag_matches m) (f n) = false) ->
  existsb (tag_matches m) (doc_kids (on_children f soup)) = false.
Proof.
  intros Hf. destruct soup as [t a kids|s]; [| reflexivity].
  simpl. apply existsb_concat_map_false. intros x _. apply Hf.
Qed.

Lemma select_clean (m : node -> bool) (soup : node) :
  existsb (tag_matches m) (doc_kids soup) = false -> select m soup = [].
Proof.
  destruct soup as [t a kids|s]; intros H; [apply select_nil; exact H | reflexivity].
Qed.

Lemma restrict_keeps_clean (m : node -> bool) (sels : list string) (soup : node) :
  tag_local m -> existsb (tag_matches m) (doc_kids soup) = false ->
  existsb (tag_matches m) (doc_kids (restrict_step sels soup)) = false.
Proof.
  intros Hloc H. unfold restrict_step.
  destruct sels as [|s0 ss]; [exact H |].
  destruct (select_all (s0 :: ss) soup) as [|r rs]; [exact H |].
  unfold prune_soup.
  destruct soup as [t a kids|s]; [| exact H].
  cbn [prune_node]. destruct (name_in t ["html"; "head"; "body"] || in_keep_set (r :: rs) []); [| exact H].
  simpl. generalize 0%nat. simpl in H. clear -Hloc H.
  induction kids as [|k ks IH]; intros i; [reflexivity |].
  simpl in H. apply orb_false_iff in H as [H1 H2].
  rewrite existsb_app, (prune_keeps_clean m _ k Hloc _ H1). apply IH. exact H2.
Qed.

Lemma matches_sel_local (sel : string) : tag_local (matches_sel sel).
Proof. split; reflexivity. Qed.

Lemma drop_fold_keeps (m : node -> bool) (sels : list string) (soup : node) :
  tag_local m -> existsb (tag_matches m) (doc_kids soup) = false ->
  existsb (tag_matches m) (doc_kids (List.fold_left
    (fun s sel => on_children (decompose_matching (matches_sel sel)) s) sels soup)) = false.
Proof.
  intros Hloc. revert soup. induction sels as [|x xs IH]; intros soup H; [exact H |].
  simpl. apply IH. apply on_children_keeps; [| exact H].
  intros n Hn. apply decompose_keeps_clean; assumption.
Qed.

Lemma unwrap_fold_keeps (m : node -> bool) (sels : list string) (soup : node) :
  tag_local m -> existsb (tag_matches m) (doc_kids soup) = false ->
  existsb (tag_matches m) (doc_kids (List.fold_left
    (fun s sel => on_children (unwrap_matching (matches_sel sel)) s) sels soup)) = false.
Proof.
  intros Hloc. revert soup. induction sels as [|x xs IH]; intros soup H; [exact H |].
  simpl. apply IH. apply on_children_keeps; [| exact H].
  intros n Hn. apply unwrap_keeps_clean; assumption.
Qed.

Lemma drop_fold_clears (sel : string) (sels : list string) (soup : node) :
  In sel sels ->
  existsb (tag_matches (matches_sel sel)) (doc_kids (List.fold_left
    (fun s sel => on_children (decompose_matching (matches_sel sel)) s) sels soup)) = false.
Proof.
  revert soup. induction sels as [|x xs IH]; intros soup Hin; [destruct Hin |].
  simpl. destruct Hin as [<- | Hin]; [| apply IH; exact Hin].
  apply drop_fold_keeps; [apply matches_sel_local |].
  apply on_children_clears. intros n. apply decompose_removes'. apply matches_sel_local.
Qed.

Lemma unwrap_fold_clears (sel : string) (sels : list string) (soup : node) :
  In sel sels ->
  existsb (tag_matches (matches_sel sel)) (doc_kids (List.fold_left
    (fun s sel => on_children (unwrap_matching (matches_sel sel)) s) sels soup)) = false.
Proof.
  revert soup. induction sels as [|x xs IH]; intros soup Hin; [destruct Hin |].
  simpl. destruct Hin as [<- | Hin]; [| apply IH; exact Hin].
  apply unwrap_fold_keeps; [apply matches_sel_local |].
  apply on_children_clears. intros n. apply unwrap_removes. apply matches_sel_local.
Qed.

(** X1: after [_trim_soup], no element whose tag is named in the [drop] or the [unwrap] selectors is left in the document. *)
Theorem trim_soup_no_dropped_or_unwrapped (pp : ParserParameters) (soup : node) (sel : string) :
  In sel (drop pp) \/ In sel (unwrap pp) ->
  select (matches_sel sel) (trim_soup pp soup) = [].
Proof.
  intros Hin. apply select_clean. unfold trim_soup, keep_step.
  apply restrict_keeps_clean; [apply matches_sel_local |].
  unfold unwrap_step. destruct Hin as [Hd | Hu].
  - apply unwrap_fold_keeps; [apply matches_sel_local |].
    unfold drop_step. apply drop_fold_clears. exact Hd.
  - apply unwrap_fold_clears. exact Hu.
Qed.

Lemma trim_soup_no_dropped_or_unwrapped_witness :
  select (matches_sel "script") (trim_soup drop_script_unwrap_span small_soup) = [] /\
  select (matches_sel "span") (trim_soup drop_script_unwrap_span small_soup) = [].
Proof.
  split; apply trim_soup_no_dropped_or_unwrapped; [left | right]; simpl; auto.
Defined.


Lemma replace_br_keeps_clean (m : node -> bool) (n : node) :
  tag_local m -> tag_matches m n = false -> existsb (tag_matches m) (replace_br n) = false.
Proof.
  intros [Hl Ht]. induction n as [s|t a kids Hall] using node_ind'; intros H; [reflexivity |].
  simpl. destruct (String.eqb t "br"); [reflexivity |].
  simpl in H |- *. apply orb_false_iff in H as [Hm Hk].
  rewrite (Hl t a _ kids), Hm. simpl. rewrite orb_false_r.
  apply existsb_concat_map_false. intros x Hx.
  rewrite List.Forall_forall in Hall. apply Hall; [exact Hx |].
  exact (existsb_false_in _ _ _ Hk Hx).
Qed.

Lemma replace_br_removes (n : node) :
  existsb (tag_matches (matches_sel "br")) (replace_br n) = false.
Proof.
  induction n as [s|t a kids Hall] using node_ind'; [reflexivity |].
  simpl. destruct (String.eqb t "br") eqn:E; [reflexivity |].
  simpl. rewrite E. simpl. rewrite orb_false_r.
  apply existsb_concat_map_false. intros x Hx.
  rewrite List.Forall_forall in Hall. apply Hall. exact Hx.
Qed.



(** X2: after [clean_html], no hidden element, no [br] element and no [style], [svg], [canvas], [template], [head], [meta] or [noscript] element is left below the document. *)
Theorem clean_html_removes (soup : node) :
  select is_hidden (clean_html soup) = [] /\
  select (matches_sel "br") (clean_html soup) = [] /\
  (forall t, In t ["style"; "svg"; "canvas"; "template"; "head"; "meta"; "noscript"] ->
     select (matches_sel t) (clean_html soup) = []).
Proof.
  assert (Hhid : tag_local is_hidden) by (split; reflexivity).
  set (mt := fun n => match n with
                | Elem t _ _ => name_in t ["style"; "svg"; "canvas"; "template";
                                           "head"; "meta"; "noscript"]
                | Text _ => false end).
  assert (Hmt : tag_local mt) by (split; reflexivity).
  unfold clean_html. fold mt.
  split; [| split].
  - apply select_clean. apply on_children_keeps.
    + intros n Hn. apply replace_br_keeps_clean; assumption.
    + apply on_children_clears. intros n. apply decompose_removes'. exact Hhid.
  - apply select_clean. apply on_children_clears. intros n. apply replace_br_removes.
  - intros t Ht. apply select_clean. apply on_children_keeps.
    + intros n Hn. apply replace_br_keeps_clean; [apply matches_sel_local | exact Hn].
    + apply on_children_keeps.
      * intros n Hn. apply decompose_keeps_clean; [apply matches_sel_local | exact Hn].
      * (* after the first pass no tag named in the list is left *)
        assert (Hsub : forall n, tag_matches mt n = false -> tag_matches (matches_sel t) n = false).
        { assert (Hnt : name_in t ["style"; "svg"; "canvas"; "template"; "head"; "meta"; "noscript"] = true)
            by (apply existsb_exists; exists t; split; [exact Ht | apply String.eqb_refl]).
          intros n. induction n as [s|t' a kids Hall] using node_ind'; intros Hn; [reflexivity |].
          cbn [tag_matches] in Hn |- *. apply orb_false_iff in Hn as [H1 H2].
          apply orb_false_iff. split.
          - apply not_true_iff_false. intros E. apply String.eqb_eq in E. subst t'.
            unfold mt in H1. congruence.
          - apply not_true_iff_false. intros Hex. apply existsb_exists in Hex as (x & Hx & Hxm).
            rewrite List.Forall_forall in Hall.
            rewrite (Hall x Hx (existsb_false_in _ _ _ H2 Hx)) in Hxm. discriminate. }
        destruct soup as [tt aa kids|s]; [| reflexivity].
        simpl. apply existsb_concat_map_false. intros x _.
        pose proof (decompose_removes' mt x Hmt) as Hd.
        apply not_true_iff_false. intros Hex. apply existsb_exists in Hex as (y & Hy & Hym).
        rewrite (Hsub y (existsb_false_in _ _ _ Hd Hy)) in Hym. discriminate.
Qed.



Lemma visible_app (l1 l2 : list string) : visible (app l1 l2) = app (visible l1) (visible l2).
Proof. unfold visible. rewrite map_app, List.filter_app. reflexivity. Qed.

Lemma visible_concat (l : list (list string)) :
  visible (List.concat l) = List.concat (List.map visible l).
Proof. induction l as [|x l IH]; [reflexivity |]. simpl. rewrite visible_app, IH. reflexivity. Qed.

Lemma concat_map_concat_map {A B C} (g : B -> list C) (h : A -> list B) (l : list A) :
  List.concat (List.map g (List.concat (List.map h l)))
  = List.concat (List.map (fun x => List.concat (List.map g (h x))) l).
Proof.
  induction l as [|x l IH]; [reflexivity |].
  simpl. rewrite map_app, concat_app, IH. reflexivity.
Qed.

Lemma concat_map_ext_in {A B} (f g : A -> list B) (l : list A) :
  (forall x, In x l -> f x = g x) -> List.concat (List.map f l) = List.concat (List.map g l).
Proof. intros H. f_equal. apply map_ext_in. exact H. Qed.

Lemma visible_nl (b : bool) : visible (if b then [] else [nl]) = [].
Proof. destruct b; reflexivity. Qed.

Lemma mark_blocks_invisible (n : node) :
  forall b, visible (List.concat (List.map (all_strings b) (mark_blocks n))) = visible (all_strings b n).
Proof.
  induction n as [s|t a kids Hall] using node_ind'; intros b.
  - simpl. rewrite app_nil_r. reflexivity.
  - set (b' := b || name_in t ["script"; "style"; "template"; "rt"; "rp"]).
    assert (Hk : visible (List.concat (List.map (all_strings b') (List.concat (List.map mark_blocks kids))))
                 = visible (List.concat (List.map (all_strings b') kids))).
    { rewrite concat_map_concat_map, !visible_concat, !map_map.
      f_equal. apply map_ext_in. intros x Hx.
      rewrite List.Forall_forall in Hall. apply Hall. exact Hx. }
    cbn [mark_blocks]. destruct (name_in t blockish).
    + cbn [List.map List.concat all_strings]. fold b'.
      rewrite !app_nil_r, !visible_app, visible_nl.
      rewrite map_app, concat_app, visible_app. cbn [List.map List.concat all_strings].
      rewrite app_nil_r, visible_nl, app_nil_r. simpl. exact Hk.
    + cbn [List.map List.concat all_strings]. fold b'. rewrite app_nil_r. exact Hk.
Qed.

Lemma mark_blocks_kids_invisible (b : bool) (kids : list node) :
  visible (List.concat (List.map (all_strings b) (List.concat (List.map mark_blocks kids))))
  = visible (List.concat (List.map (all_strings b) kids)).
Proof.
  rewrite concat_map_concat_map, !visible_concat, !map_map.
  f_equal. apply map_ext. intros x. apply mark_blocks_invisible.
Qed.

(** X3: the newline markers that [_soup_to_text] inserts around block elements never change the text returned by [get_text]: the result equals [get_text] of the unmarked document. *)
Theorem get_text_ignores_block_marks (soup : node) :
  get_text (on_children mark_blocks soup) = get_text soup.
Proof.
  destruct soup as [t a kids|s]; [| reflexivity].
  unfold get_text. cbn [on_children all_strings].
  change (Py.join " " (visible (List.concat (List.map (all_strings
            (false || name_in t ["script"; "style"; "template"; "rt"; "rp"]))
            (List.concat (List.map mark_blocks kids)))))
          = Py.join " " (visible (List.concat (List.map (all_strings
            (false || name_in t ["script"; "style"; "template"; "rt"; "rp"])) kids)))).
  rewrite mark_blocks_kids_invisible. reflexivity.
Qed.

Lemma unwrap_keeps_strings (m : node -> bool) (n : node) :
  (forall t a k, m (Elem t a k) = true -> name_in t ["script"; "style"; "template"; "rt"; "rp"] = false) ->
  forall b, List.concat (List.map (all_strings b) (unwrap_matching m n)) = all_strings b n.
Proof.
  intros Hm. induction n as [s|t a kids Hall] using node_ind'; intros b.
  - simpl. rewrite app_nil_r. reflexivity.
  - set (b' := b || name_in t ["script"; "style"; "template"; "rt"; "rp"]).
    assert (Hk : forall c, List.concat (List.map (all_strings c) (List.concat (List.map (unwrap_matching m) kids)))
                 = List.concat (List.map (all_strings c) kids)).
    { intros c. rewrite concat_map_concat_map. f_equal. apply map_ext_in. intros x Hx.
      rewrite List.Forall_forall in Hall. apply Hall. exact Hx. }
    cbn [unwrap_matching]. destruct (m (Elem t a kids)) eqn:E.
    + rewrite Hk. cbn [all_strings]. rewrite (Hm t a kids E), orb_false_r. reflexivity.
    + cbn [List.map List.concat all_strings]. rewrite app_nil_r. apply Hk.
Qed.

(** X4: when no [unwrap] selector names a tag whose text [get_text] skips, the unwrap step of [_trim_soup] keeps the document's strings, in order, and so its [get_text]. *)
Theorem unwrap_step_keeps_text (pp : ParserParameters) (soup : node) :
  (forall sel, In sel (unwrap pp) -> name_in sel ["script"; "style"; "template"; "rt"; "rp"] = false) ->
  all_strings false (unwrap_step pp soup) = all_strings false soup /\
  get_text (unwrap_step pp soup) = get_text soup.
Proof.
  intros Hsel.
  assert (H : all_strings false (unwrap_step pp soup) = all_strings false soup).
  { unfold unwrap_step. revert soup. induction (unwrap pp) as [|x xs IH]; intros soup; [reflexivity |].
    simpl. rewrite IH by (intros sel Hin; apply Hsel; right; exact Hin).
    destruct soup as [t a kids|s]; [| reflexivity].
    cbn [on_children all_strings]. rewrite concat_map_concat_map. f_equal. apply map_ext. intros k.
    apply unwrap_keeps_strings. intros t' a' k' E. apply String.eqb_eq in E. subst t'.
    apply Hsel. left. reflexivity. }
  split; [exact H | unfold get_text; rewrite H; reflexivity].
Qed.

Lemma unwrap_step_keeps_text_witness :
  get_text (unwrap_step drop_script_unwrap_span small_soup) = get_text small_soup.
Proof.
  apply (unwrap_step_keeps_text drop_script_unwrap_span small_soup).
  intros sel [<- | []]. reflexivity.
Defined.




Lemma filter_length_perm {A} (f : A -> bool) (l l' : list A) :
  l ≡ₚ l' -> length (List.filter f l) = length (List.filter f l').
Proof.
  induction 1 as [|x l l' H IH|x y l|l l' l'' H1 IH1 H2 IH2]; simpl.
  - reflexivity.
  - destruct (f x); simpl; lia.
  - destruct (f x), (f y); simpl; lia.
  - lia.
Qed.

Lemma count_insert_new (m : gmap string URL) (k : string) (v : URL) (p : string) :
  m !! k = None ->
  length (List.filter (has_prefix p) (List.map snd (map_to_list (<[k:=v]> m))))
  = ((if has_prefix p v then 1 else 0) + length (List.filter (has_prefix p) (List.map snd (map_to_list m))))%nat.
Proof.
  intros H. rewrite (filter_length_perm _ _ (List.map snd ((k, v) :: map_to_list m))).
  - simpl. destruct (has_prefix p v); reflexivity.
  - apply Permutation_map. apply map_to_list_insert. exact H.
Qed.

Lemma count_insert_le (m : gmap string URL) (k : string) (v : URL) (p : string) :
  (length (List.filter (has_prefix p) (List.map snd (map_to_list (<[k:=v]> m))))
  <= (if has_prefix p v then 1 else 0) + length (List.filter (has_prefix p) (List.map snd (map_to_list m))))%nat.
Proof.
  destruct (m !! k) as [x|] eqn:E.
  - rewrite <- insert_delete_eq.
    rewrite count_insert_new by apply lookup_delete_eq.
    rewrite <- (insert_delete_id m k x E) at 2.
    rewrite count_insert_new by apply lookup_delete_eq.
    destruct (has_prefix p x); lia.
  - rewrite count_insert_new by exact E. lia.
Qed.

Lemma find_urls_count (st : Store) (p : string) :
  length (find_urls_with_prefix st p)
  = length (List.filter (has_prefix p) (List.map snd (map_to_list (urls st)))).
Proof. reflexivity. Qed.

(** X5: saving a URL row that is not stored yet raises [find_urls_with_prefix] of its own prefix by one and leaves the count of every other prefix unchanged. *)
Theorem save_new_url_count (st : Store) (u : URL) (p : string) :
  urls st !! url u = None ->
  length (find_urls_with_prefix (save_url u st) p)
  = ((if decide (prefix u = Some p) then 1 else 0) + length (find_urls_with_prefix st p))%nat.
Proof.
  intros H. rewrite !find_urls_count. simpl. rewrite count_insert_new by exact H.
  unfold has_prefix. destruct (prefix u) as [q|].
  - destruct (String.eqb_spec q p) as [->|Hne].
    + rewrite decide_True by reflexivity. reflexivity.
    + rewrite decide_False by congruence. reflexivity.
  - rewrite decide_False by discriminate. reflexivity.
Qed.

Lemma save_new_url_count_witness :
  length (find_urls_with_prefix
            (save_url (mkURL "https://a.com/p/new" (Some "https://a.com/p") None None) cap_store)
            "https://a.com/p") = 21%nat.
Proof.
  rewrite (save_new_url_count cap_store (mkURL "https://a.com/p/new" (Some "https://a.com/p") None None)
             "https://a.com/p") by reflexivity.
  reflexivity.
Defined.


Lemma links_fold_effect (pfx : string) (now : Z) (links : list string) (st : Store) :
  let st' := List.fold_left (fun s l =>
               if parsed_in_store s l then s
               else push_url (mkURLQueueItem (mkURL l (Some pfx) None None) now 0) s) links st in
  urls st' = urls st /\ prefixes st' = prefixes st /\ prefix_queue st' = prefix_queue st /\
  url_queue st' = app (List.rev (List.map (fun l => mkURLQueueItem (mkURL l (Some pfx) None None) now 0)
                                  (List.filter (fun l => negb (parsed_in_store st l)) links)))
                      (url_queue st).
Proof.
  revert st. induction links as [|l ls IH]; intros st; [simpl; auto |].
  cbn [List.fold_left]. destruct (parsed_in_store st l) eqn:E.
  - destruct (IH st) as (H1 & H2 & H3 & H4). repeat split; try assumption.
    rewrite H4. cbn [List.filter]. rewrite E. reflexivity.
  - destruct (IH (push_url (mkURLQueueItem (mkURL l (Some pfx) None None) now 0) st))
      as (H1 & H2 & H3 & H4).
    repeat split; [rewrite H1; reflexivity | rewrite H2; reflexivity | rewrite H3; reflexivity |].
    rewrite H4. cbn [List.filter]. rewrite E. cbn [negb List.map List.rev].
    rewrite <- app_assoc. reflexivity.
Qed.

Lemma process_urls_effect load_raw_html parse extract_links_from_html
    (now : Z) (qi : URLQueueItem) (st : Store) (r : ItemStatus) (st' : Store) :
  process_url_queue_item load_raw_html parse extract_links_from_html now qi st = (r, st') ->
  (r <> Success -> urls st' = urls st) /\
  (r = Success -> exists p cfg raw parsed,
     find_prefix_for_url (prefixes st) (url (q_url qi)) = Some p /\
     parser_config p = Some cfg /\
     (length (find_urls_with_prefix st (up_prefix p)) < 20)%nat /\
     load_raw_html (url (q_url qi)) = inr raw /\ parse cfg raw = inr parsed /\
     urls st' = <[url (q_url qi) := mkURL (url (q_url qi)) (Some (up_prefix p)) (Some raw) (Some parsed)]>
                  (urls st)).
Proof.
  unfold process_url_queue_item. intros Hrun.
  destruct (now <? process_from_unix_timestamp qi)%Z.
  { inversion Hrun; subst. split; [reflexivity | discriminate]. }
  assert (Hwc : process_without_config load_raw_html now qi st = (r, st') ->
                (r <> Success -> urls st' = urls st) /\ (r = Success -> False)).
  { unfold process_without_config. intros H.
    destruct (load_raw_html (url (q_url qi))) as [e|raw].
    - inversion H; subst. split; [reflexivity | discriminate].
    - destruct (prefixes st !! get_deepest_prefix (url (q_url qi))); inversion H; subst;
        split; [reflexivity | discriminate | reflexivity | discriminate]. }
  destruct (find_prefix_for_url (prefixes st) (url (q_url qi))) as [p|] eqn:Hp.
  - destruct (20 <=? length (find_urls_with_prefix st (up_prefix p)))%nat eqn:Hc.
    { inversion Hrun; subst. split; [reflexivity | discriminate]. }
    apply Nat.leb_gt in Hc.
    destruct (parser_config p) as [cfg|] eqn:Hcfg.
    + unfold process_with_config in Hrun.
      destruct (parsed_in_store st (url (q_url qi))).
      { inversion Hrun; subst. split; [reflexivity | discriminate]. }
      destruct (load_raw_html (url (q_url qi))) as [e|raw] eqn:Hl.
      { inversion Hrun; subst. split; [reflexivity | discriminate]. }
      destruct (parse cfg raw) as [e|parsed] eqn:Hpa.
      { inversion Hrun; subst. split; [reflexivity | discriminate]. }
      inversion Hrun as [[Hr Hst]]. subst r.
      destruct (links_fold_effect (up_prefix p) now
                  (extract_links_from_html raw (url (q_url qi)) (up_prefix p))
                  (save_url (mkURL (url (q_url qi)) (Some (up_prefix p)) (Some raw) (Some parsed)) st))
        as (H1 & _ & _ & _).
      split; [intros C; congruence | intros _].
      exists p, cfg, raw, parsed. repeat split; assumption.
    + destruct (Hwc Hrun) as [H1 H2]. split; [exact H1 | intros E; exfalso; exact (H2 E)].
  - destruct (Hwc Hrun) as [H1 H2]. split; [exact H1 | intros E; exfalso; exact (H2 E)].
Qed.


(** X7: if every prefix owns at most 20 URL rows before an item is processed, every prefix owns at most 20 rows after it. *)
Theorem process_keeps_prefix_cap load_raw_html parse extract_links_from_html
    (now : Z) (qi : URLQueueItem) (st : Store) :
  (forall q, length (find_urls_with_prefix st q) <= 20)%nat ->
  forall q, (length (find_urls_with_prefix
               (snd (process_url_queue_item load_raw_html parse extract_links_from_html now qi st)) q)
             <= 20)%nat.
Proof.
  intros Hcap q.
  destruct (process_url_queue_item load_raw_html parse extract_links_from_html now qi st)
    as [r st'] eqn:E. simpl.
  destruct (process_urls_effect _ _ _ _ _ _ _ _ E) as [H1 H2].
  assert (Hdec : r = Success \/ r <> Success) by (destruct r; auto; right; discriminate).
  destruct Hdec as [Hr|Hr].
  - destruct (H2 Hr) as (p & cfg & raw & parsed & Hp & _ & Hlt & _ & _ & Hu).
    rewrite find_urls_count, Hu.
    pose proof (count_insert_le (urls st) (url (q_url qi))
                  (mkURL (url (q_url qi)) (Some (up_prefix p)) (Some raw) (Some parsed)) q) as Hle.
    rewrite <- find_urls_count in Hle.
    assert (Hh : has_prefix q (mkURL (url (q_url qi)) (Some (up_prefix p)) (Some raw) (Some parsed))
                 = (up_prefix p =? q)) by reflexivity.
    rewrite Hh in Hle.
    destruct (String.eqb_spec (up_prefix p) q) as [<-|Hne].
    + lia.
    + specialize (Hcap q). lia.
  - rewrite find_urls_count, (H1 Hr), <- find_urls_count. apply Hcap.
Qed.

Lemma process_keeps_prefix_cap_witness :
  (length (find_urls_with_prefix
             (snd (process_url_queue_item ok_fetch text_parse one_link 0 page_item cfg_store))
             "https://a.com/p") <= 20)%nat.
Proof.
  apply (process_keeps_prefix_cap ok_fetch text_parse one_link 0 page_item cfg_store).
  intros q. vm_compute. lia.
Defined.


Lemma process_requeued_without_config load_raw_html parse extract_links_from_html
    (now : Z) (qi : URLQueueItem) (st st' : Store) :
  process_url_queue_item load_raw_html parse extract_links_from_html now qi st = (Requeued, st') ->
  process_without_config load_raw_html now qi st = (Requeued, st').
Proof.
  unfold process_url_queue_item. intros H.
  destruct (now <? process_from_unix_timestamp qi)%Z; [discriminate |].
  destruct (find_prefix_for_url (prefixes st) (url (q_url qi))) as [p|]; [| exact H].
  destruct (20 <=? length (find_urls_with_prefix st (up_prefix p)))%nat; [discriminate |].
  destruct (parser_config p) as [cfg|]; [| exact H].
  unfold process_with_config in H.
  destruct (parsed_in_store st (url (q_url qi))); [discriminate |].
  destruct (load_raw_html (url (q_url qi))); [discriminate |].
  destruct (parse cfg s); discriminate.
Qed.

(** X8: when an item is requeued, its page was fetched, the deepest prefix record gains the page as its last sample (config and status kept), that record is put on the prefix queue, no URL row is written and the item is put back with its time moved 30 seconds on and one more requeue. *)
Theorem requeue_records_sample load_raw_html parse extract_links_from_html
    (now : Z) (qi : URLQueueItem) (st st' : Store) :
  (forall k e, prefixes st !! k = Some e -> up_prefix e = k) ->
  process_url_queue_item load_raw_html parse extract_links_from_html now qi st = (Requeued, st') ->
  let u := url (q_url qi) in
  let d := get_deepest_prefix u in
  let old := prefixes st !! d in
  exists raw e',
    load_raw_html u = inr raw /\
    prefixes st' = <[d := e']> (prefixes st) /\
    up_prefix e' = d /\
    sample_urls e' = app (match old with Some e => sample_urls e | None => [] end)
                         [mkSampleURL u (Some raw) None] /\
    parser_config e' = match old with Some e => parser_config e | None => None end /\
    processing_status e' = match old with Some e => processing_status e | None => None end /\
    prefix_queue st' = e' :: prefix_queue st /\
    urls st' = urls st /\
    url_queue st' = mkURLQueueItem (q_url qi) (now + 30) (times_queued qi + 1) :: url_queue st.
Proof.
  intros Hcons Hrun u d old.
  apply process_requeued_without_config in Hrun.
  unfold process_without_config in Hrun. fold u d in Hrun.
  destruct (load_raw_html u) as [e|raw] eqn:Hl; [discriminate |].
  exists raw. unfold old. destruct (prefixes st !! d) as [e|] eqn:Hd.
  - inversion Hrun; subst. eexists. split; [reflexivity |].
    unfold save_prefix. simpl. rewrite (Hcons d e Hd).
    repeat split; try reflexivity; exact (Hcons d e Hd).
  - inversion Hrun; subst. eexists. split; [reflexivity |].
    repeat split; reflexivity.
Qed.

Lemma requeue_records_sample_witness :
  exists raw e', ok_fetch "https://a.com/p/x" = inr raw /\ up_prefix e' = "https://a.com/p" /\
    sample_urls e' = [mkSampleURL "https://a.com/p/x" (Some raw) None].
Proof.
  destruct (requeue_records_sample ok_fetch text_parse one_link 0 page_item nocfg_store
              (snd (process_url_queue_item ok_fetch text_parse one_link 0 page_item nocfg_store)))
    as (raw & e' & Hl & _ & Hup & Hs & _).
  - intros k e H. cbn [prefixes nocfg_store] in H.
    apply lookup_insert_Some in H as [[<- <-] | [_ H]]; [reflexivity |].
    rewrite lookup_empty in H. discriminate.
  - vm_compute. reflexivity.
  - exists raw, e'. split; [exact Hl | split; [exact Hup | exact Hs]].
Defined.


(** X9: on [success] the URL queue grows only at its head, by items for links extracted from the page under the owning prefix, scheduled now, never queued before, and not yet parsed; the prefix records and the prefix queue are unchanged. *)
Theorem success_enqueues_fresh_links load_raw_html parse extract_links_from_html
    (now : Z) (qi : URLQueueItem) (st st' : Store) :
  process_url_queue_item load_raw_html parse extract_links_from_html now qi st = (Success, st') ->
  let u := url (q_url qi) in
  exists p raw added,
    find_prefix_for_url (prefixes st) u = Some p /\
    load_raw_html u = inr raw /\
    url_queue st' = app added (url_queue st) /\
    prefixes st' = prefixes st /\ prefix_queue st' = prefix_queue st /\
    Forall (fun x =>
      In (url (q_url x)) (extract_links_from_html raw u (up_prefix p)) /\
      q_url x = mkURL (url (q_url x)) (Some (up_prefix p)) None None /\
      process_from_unix_timestamp x = now /\ times_queued x = 0%Z /\
      parsed_in_store st' (url (q_url x)) = false) added.
Proof.
  intros Hrun u. unfold process_url_queue_item in Hrun.
  destruct (now <? process_from_unix_timestamp qi)%Z; [discriminate |].
  assert (Hwc : process_without_config load_raw_html now qi st <> (Success, st')).
  { unfold process_without_config. destruct (load_raw_html (url (q_url qi))); [discriminate |].
    destruct (prefixes st !! get_deepest_prefix (url (q_url qi))); discriminate. }
  destruct (find_prefix_for_url (prefixes st) (url (q_url qi))) as [p|] eqn:Hp;
    [| exfalso; exact (Hwc Hrun)].
  destruct (20 <=? length (find_urls_with_prefix st (up_prefix p)))%nat; [discriminate |].
  destruct (parser_config p) as [cfg|]; [| exfalso; exact (Hwc Hrun)].
  unfold process_with_config in Hrun.
  destruct (parsed_in_store st (url (q_url qi))); [discriminate |].
  destruct (load_raw_html (url (q_url qi))) as [e|raw] eqn:Hl; [discriminate |].
  destruct (parse cfg raw) as [e|parsed]; [discriminate |].
  inversion Hrun as [Hst]. clear Hrun.
  set (st1 := save_url (mkURL (url (q_url qi)) (Some (up_prefix p)) (Some raw) (Some parsed)) st) in Hst.
  set (links := extract_links_from_html raw (url (q_url qi)) (up_prefix p)) in Hst.
  destruct (links_fold_effect (up_prefix p) now links st1) as (H1 & H2 & H3 & H4).
  subst st'.
  exists p, raw, (List.rev (List.map (fun l => mkURLQueueItem (mkURL l (Some (up_prefix p)) None None) now 0)
                   (List.filter (fun l => negb (parsed_in_store st1 l)) links))).
  split; [exact Hp | split; [exact Hl | split; [exact H4 | split; [exact H2 | split; [exact H3 |]]]]].
  apply List.Forall_forall. intros x Hx.
  apply in_rev in Hx. apply in_map_iff in Hx as (l & <- & Hin).
  apply filter_In in Hin as [Hin Hnp]. simpl.
  split; [exact Hin | split; [reflexivity | split; [reflexivity | split; [reflexivity |]]]].
  unfold parsed_in_store in Hnp |- *. rewrite <- H1 in Hnp. apply negb_true_iff. exact Hnp.
Qed.

Lemma success_enqueues_fresh_links_witness :
  List.Forall (fun x => In (url (q_url x)) ["https://a.com/p/y"])
    (url_queue (snd (process_url_queue_item ok_fetch text_parse one_link 0 page_item cfg_store))).
Proof.
  destruct (success_enqueues_fresh_links ok_fetch text_parse one_link 0 page_item cfg_store
              (snd (process_url_queue_item ok_fetch text_parse one_link 0 page_item cfg_store)))
    as (p & raw & added & _ & _ & Hq & _ & _ & Hf).
  - vm_compute. reflexivity.
  - rewrite Hq. cbn [url_queue cfg_store]. rewrite app_nil_r.
    apply (List.Forall_impl _ (fun x H => proj1 H) Hf).
Defined.


Section SynthesisExtra.

Variable config : ParserGeneratorConfig.
Variable generate_call : list SampleURL -> string + ParserParameters.
Variable repair_call : SampleURL -> ParserConfig -> string -> string + ParserParameters.
Variable reflect_call : SampleURL -> ParserConfig -> string -> string + ParserParameters.
Variable parse : ParserConfig -> option string -> string + string.

(** X10: [_validate_parser] returns [None] exactly when every sample parses, and otherwise the first sample whose parse raises, with that error. *)
Theorem validate_parser_first_failure (c : ParserConfig) (samples : list SampleURL) :
  (validate_parser parse c samples = None <->
     Forall (fun s => exists t, parse c (s_raw_content s) = inr t) samples) /\
  (forall s e, validate_parser parse c samples = Some (s, e) <->
     exists before after, samples = app before (s :: after) /\
       Forall (fun s' => exists t, parse c (s_raw_content s') = inr t) before /\
       parse c (s_raw_content s) = inl e).
Proof.
  induction samples as [|x rest [IH1 IH2]]; simpl.
  - split; [split; auto |]. intros s e. split; [discriminate |].
    intros (before & after & H & _). destruct before; discriminate.
  - destruct (parse c (s_raw_content x)) as [err|t] eqn:Hx.
    + split.
      * split; [discriminate |]. intros H. inversion H as [|? ? (t & Ht) _]. congruence.
      * intros s e. split.
        -- intros H. inversion H; subst. exists [], rest. auto.
        -- intros (before & after & Heq & Hall & Hs).
           destruct before as [|b bs].
           ++ inversion Heq; subst. congruence.
           ++ inversion Heq; subst. inversion Hall as [|? ? (t & Ht) _]. congruence.
    + split.
      * rewrite IH1. split.
        -- intros H. constructor; [exists t; exact Hx | exact H].
        -- intros H. apply Forall_cons_1 in H. exact (proj2 H).
      * intros s e. rewrite IH2. split.
        -- intros (before & after & Heq & Hall & Hs). exists (x :: before), after.
           rewrite Heq. split; [reflexivity | split; [constructor; eauto | exact Hs]].
        -- intros (before & after & Heq & Hall & Hs).
           destruct before as [|b bs].
           ++ inversion Heq; subst. congruence.
           ++ inversion Heq; subst. inversion Hall; subst.
              exists bs, after. auto.
Qed.

Lemma attempt_success_validated (up : URLPrefix) (k : nat) (c : ParserConfig) :
  attempt config generate_call repair_call parse up k = inr (Some c) ->
  validate_parser parse c (sample_urls up) = None /\ prefix_name c = up_prefix up.
Proof.
  unfold attempt. intros H.
  destruct (generate_call (firstn k (sample_urls up))) as [e|pp]; [discriminate H |].
  destruct (validate_parser parse (mkParserConfig pp (up_prefix up)) (sample_urls up)) as [[s msg]|] eqn:Hv.
  - destruct (error_prompt config); [| discriminate H].
    destruct (repair_call s (mkParserConfig pp (up_prefix up)) msg) as [e|pp']; [discriminate H |].
    destruct (validate_parser parse (mkParserConfig pp' (prefix_name (mkParserConfig pp (up_prefix up))))
                (sample_urls up)); discriminate H.
  - inversion H; subst. auto.
Qed.

Lemma loop_success_validated (up : URLPrefix) (fuel n : nat) (c : ParserConfig) :
  generation_loop config generate_call repair_call parse up fuel n = Some (inr (Some c)) ->
  validate_parser parse c (sample_urls up) = None /\ prefix_name c = up_prefix up.
Proof.
  revert n. induction fuel as [|f IH]; intros n H; [discriminate |].
  cbn [generation_loop] in H. destruct n as [|n']; [discriminate |].
  destruct (attempt config generate_call repair_call parse up (S n')) as [e|[c'|]] eqn:Ha.
  - destruct (Py.contains context_window_phrase e); [exact (IH _ H) | discriminate].
  - inversion H; subst. exact (attempt_success_validated _ _ _ Ha).
  - exact (IH _ H).
Qed.

Lemma reflect_configs_names (c : ParserConfig) (samples : list SampleURL) (pn : string) (cs : list ParserConfig) :
  reflect_configs reflect_call parse c samples pn = inr cs -> Forall (fun c' => prefix_name c' = pn) cs.
Proof.
  revert cs. induction samples as [|s rest IH]; intros cs H; simpl in H.
  - inversion H. constructor.
  - destruct (parse c (s_raw_content s)); [discriminate |].
    destruct (reflect_call s c s0); [discriminate |].
    destruct (reflect_configs reflect_call parse c rest pn) as [e|cs'] eqn:E; [discriminate |].
    inversion H; subst. constructor; [reflexivity | exact (IH _ eq_refl)].
Qed.

Lemma fold_pc_add_name (cs : list ParserConfig) (c0 : ParserConfig) :
  prefix_name (List.fold_left pc_add cs c0) = prefix_name c0.
Proof. revert c0. induction cs as [|c cs IH]; intros c0; [reflexivity |]. simpl. rewrite IH. reflexivity. Qed.

(** X11: a parser returned by [generate_parser] carries the prefix's name, and without a reflection prompt it parses every sample. *)
Theorem generate_parser_result_named_and_validated (fuel : nat) (up : URLPrefix) (c : ParserConfig) :
  generate_parser config generate_call repair_call reflect_call parse fuel up = Some (inr c) ->
  prefix_name c = up_prefix up /\
  (reflection_prompt config = None -> validate_parser parse c (sample_urls up) = None).
Proof.
  unfold generate_parser.
  destruct (generation_loop config generate_call repair_call parse up fuel (length (sample_urls up)))
    as [[e|[c1|]]|] eqn:Hl; try discriminate.
  pose proof (loop_success_validated _ _ _ _ Hl) as [Hv Hn].
  destruct (reflection_prompt config) as [r|] eqn:Hr.
  - unfold reflect_on_parser.
    destruct (reflect_configs reflect_call parse c1 (sample_urls up) (up_prefix up)) as [e|[|c0 cs]] eqn:Hc;
      try discriminate.
    intros H. inversion H; subst. split; [| discriminate].
    rewrite fold_pc_add_name.
    apply reflect_configs_names in Hc. inversion Hc; assumption.
  - intros H. inversion H; subst. auto.
Qed.

(** X12: if every prompt with more than k samples overflows the context window and the prompt with k samples fails with another error, [generate_parser] raises that error. *)
Theorem generate_parser_raises_first_hard_error (up : URLPrefix) (fuel k : nat) (m : string) :
  let n := length (sample_urls up) in
  (1 <= k <= n)%nat -> (n - k < fuel)%nat ->
  (forall j, (k < j <= n)%nat -> exists m',
     generate_call (firstn j (sample_urls up)) = inl m' /\
     Py.contains context_window_phrase m' = true) ->
  generate_call (firstn k (sample_urls up)) = inl m ->
  Py.contains context_window_phrase m = false ->
  generate_parser config generate_call repair_call reflect_call parse fuel up = Some (inl m).
Proof.
  intros n Hk Hf Hov Hm Hc. unfold generate_parser. fold n.
  assert (Hloop : forall d f, (d + k <= n)%nat -> (d < f)%nat ->
            generation_loop config generate_call repair_call parse up f (d + k) = Some (inl m)).
  { induction d as [|d IH]; intros f Hd Hlt.
    - destruct f as [|f]; [lia |]. destruct k as [|k']; [lia |].
      cbn [generation_loop Nat.add]. unfold attempt at 1. rewrite Hm, Hc. reflexivity.
    - destruct f as [|f]; [lia |].
      destruct (Hov (S d + k)%nat ltac:(lia)) as (m' & Hm' & Hc').
      replace (S d + k)%nat with (S (d + k)) by lia.
      cbn [generation_loop]. unfold attempt at 1.
      replace (S (d + k)) with (S d + k)%nat by lia. rewrite Hm', Hc'.
      replace (S d + k - 1)%nat with (d + k)%nat by lia.
      apply IH; clear -Hd Hlt; lia. }
  replace n with ((n - k) + k)%nat at 1 by lia.
  rewrite (Hloop (n - k)%nat fuel ltac:(lia) Hf). reflexivity.
Qed.

End SynthesisExtra.

Lemma generate_parser_raises_first_hard_error_witness :
  generate_parser plain_generator_config hard_error_call no_repair no_repair parse_ok 4 five_prefix
  = Some (inl rate_limit_error).
Proof.
  apply (generate_parser_raises_first_hard_error plain_generator_config hard_error_call
           no_repair no_repair parse_ok five_prefix 4 2).
  - simpl. lia.
  - simpl. lia.
  - intros j Hj. simpl in Hj. exists overflow_error.
    assert (j = 3 \/ j = 4 \/ j = 5)%nat as [-> | [-> | ->]] by lia; split; reflexivity.
  - reflexivity.
  - vm_compute. reflexivity.
Defined.


Lemma generate_parser_result_named_and_validated_witness :
  prefix_name (mkParserConfig main_params "https://a.com/p") = up_prefix five_prefix /\
  validate_parser parse_ok (mkParserConfig main_params "https://a.com/p") (sample_urls five_prefix) = None.
Proof.
  destruct (generate_parser_result_named_and_validated plain_generator_config small_context_call
              no_repair no_repair parse_ok 4 five_prefix (mkParserConfig main_params "https://a.com/p"))
    as [H1 H2].
  - vm_compute. reflexivity.
  - split; [exact H1 | apply H2; reflexivity].
Defined.


Import RedisQueue.

Lemma get_from_queue_snoc {A} (q : list A) (x : A) :
  get_from_queue (app q [x]) = (Some x, q).
Proof.
  unfold get_from_queue. rewrite rev_app_distr. simpl. rewrite rev_involutive. reflexivity.
Qed.

Lemma drain_rev {A} (k : nat) (l : list A) :
  drain k (List.rev l) = (firstn k l, List.rev (skipn k l)).
Proof.
  revert l. induction k as [|k IH]; intros l.
  - reflexivity.
  - destruct l as [|x l].
    + reflexivity.
    + cbn [drain]. simpl List.rev. rewrite get_from_queue_snoc. rewrite IH. reflexivity.
Qed.

Lemma push_all {A} (xs q : list A) :
  List.fold_left (fun q x => add_to_queue x q) xs q = app (List.rev xs) q.
Proof.
  revert q. induction xs as [|x xs IH]; intros q; [reflexivity |].
  simpl. rewrite IH. unfold add_to_queue. rewrite <- app_assoc. reflexivity.
Qed.

(** X13: the Redis queues are FIFO: after pushing xs onto a queue q, as many gets as there are items return the items of q, oldest first, then xs in push order, and leave the queue empty. *)
Theorem queue_fifo {A} (q xs : list A) :
  drain (length q + length xs) (List.fold_left (fun q x => add_to_queue x q) xs q)
  = (app (List.rev q) xs, []).
Proof.
  rewrite push_all. replace (app (List.rev xs) q) with (List.rev (app (List.rev q) xs))
    by (rewrite rev_app_distr, rev_involutive; reflexivity).
  rewrite drain_rev.
  rewrite firstn_all2, skipn_all2; [reflexivity | |];
    rewrite length_app, length_rev; lia.
Qed.

(** X14: [peek_from_queue] returns the item that [get_from_queue] pops; a get shortens the queue by one, and returns [None] exactly on an empty queue. *)
Theorem get_peek_queue {A} (q : list A) :
  fst (get_from_queue q) = peek_from_queue q /\
  queue_length (snd (get_from_queue q)) = (queue_length q - 1)%nat /\
  (q = [] <-> fst (get_from_queue q) = None).
Proof.
  destruct q as [|y q'] using rev_ind; [| rename q' into r, y into x; clear IHq'].
  - split; [reflexivity | split; [reflexivity | tauto]].
  - rewrite get_from_queue_snoc. unfold peek_from_queue, queue_length.
    rewrite rev_app_distr. simpl. rewrite length_app. simpl.
    split; [reflexivity | split; [lia |]].
    split; intros H; [destruct r; discriminate | discriminate].
Qed.

(** X15: reading back the production config name gives the name set, except that an empty name reads back as unset. *)
Theorem production_config_round_trip (n : string) :
  (get_production_config (set_production_config n) = Some n <-> n <> "") /\
  (n = "" -> get_production_config (set_production_config n) = None).
Proof.
  unfold get_production_config, set_production_config.
  destruct (String.eqb_spec n "") as [->|Hn].
  - split; [split; [discriminate | tauto] | reflexivity].
  - split; [tauto | intros; contradiction].
Qed.



Lemma gsave_consistent p g : gen_consistent g -> gen_consistent (gsave p g).
Proof.
  intros H k e. unfold gsave. simpl.
  destruct (decide (k = up_prefix p)) as [->|Hne].
  - rewrite lookup_insert_eq. congruence.
  - rewrite lookup_insert_ne by congruence. apply H.
Qed.

Lemma run_job_outcome gen u g :
  gen_consistent g ->
  let '(r, g') := run_job gen u g in
  gen_consistent g' /\
  (forall k, k <> up_prefix u -> gprefixes g' !! k = gprefixes g !! k) /\
  exists p, gprefixes g' !! up_prefix u = Some p /\
    ((r = JSuccess /\ processing_status p = Some "completed" /\ parser_config p <> None) \/
     (r = JError /\ processing_status p = Some "failed")).
Proof.
  intros Hc. unfold run_job.
  destruct (gen (with_status (Some "in_progress") u)) as [e|c].
  - split; [apply gsave_consistent, gsave_consistent, Hc |].
    split.
    + intros k Hk. unfold gsave; simpl.
      rewrite !lookup_insert_ne by (simpl; congruence). reflexivity.
    + eexists. unfold gsave; simpl. rewrite lookup_insert_eq.
      split; [reflexivity | right; split; reflexivity].
  - split; [apply gsave_consistent, gsave_consistent, Hc |].
    split.
    + intros k Hk. unfold gsave; simpl.
      rewrite !lookup_insert_ne by (simpl; congruence). reflexivity.
    + eexists. unfold gsave; simpl. rewrite lookup_insert_eq.
      split; [reflexivity | left; split; [reflexivity | split; [reflexivity | discriminate]]].
Qed.

(** X16: when the store keys each prefix record by its own prefix, a synthesis job either skips with nothing changed or leaves the record of its prefix [completed] with a config (on success) or [failed] (on error), changes no other record, and keeps the store keyed by prefix. *)
Theorem job_never_leaves_in_progress gen (u : URLPrefix) (g : GenState) :
  gen_consistent g ->
  let '(r, g') := process_url_prefix_job gen u g in
  gen_consistent g' /\
  (forall k, k <> up_prefix u -> gprefixes g' !! k = gprefixes g !! k) /\
  ((r = JSkipped /\ g' = g) \/
   exists p, gprefixes g' !! up_prefix u = Some p /\
     ((r = JSuccess /\ processing_status p = Some "completed" /\ parser_config p <> None) \/
      (r = JError /\ processing_status p = Some "failed"))).
Proof.
  intros Hc. unfold process_url_prefix_job.
  destruct (gprefixes g !! up_prefix u) as [e|] eqn:He.
  - destruct (status_is "in_progress" e).
    + split; [exact Hc | split; [reflexivity | left; split; reflexivity]].
    + destruct (status_is "failed" e).
      * unfold reset_failed_url_prefix.
        pose proof (Hc _ _ He) as Hup.
        assert (Hc1 : gen_consistent (gsave (with_status None e) g)) by (apply gsave_consistent, Hc).
        pose proof (run_job_outcome gen (with_status None e) _ Hc1) as Hr.
        destruct (run_job gen (with_status None e) (gsave (with_status None e) g)) as [r g'].
        simpl in Hr. rewrite Hup in Hr. destruct Hr as (Hc' & Hf & Hp).
        split; [exact Hc' | split; [| right; exact Hp]].
        intros k Hk. rewrite (Hf k Hk). unfold gsave; simpl.
        rewrite lookup_insert_ne by (simpl; congruence). reflexivity.
      * pose proof (run_job_outcome gen u g Hc) as Hr.
        destruct (run_job gen u g) as [r g']. destruct Hr as (Hc' & Hf & Hp).
        split; [exact Hc' | split; [exact Hf | right; exact Hp]].
  - pose proof (run_job_outcome gen u g Hc) as Hr.
    destruct (run_job gen u g) as [r g']. destruct Hr as (Hc' & Hf & Hp).
    split; [exact Hc' | split; [exact Hf | right; exact Hp]].
Qed.

Lemma job_never_leaves_in_progress_witness :
  gprefixes (snd (process_url_prefix_job (fun _ => inl "boom") job_dequeued job_state)) !! "https://a.com/q"
  = gprefixes job_state !! "https://a.com/q".
Proof.
  pose proof (job_never_leaves_in_progress (fun _ => inl "boom") job_dequeued job_state) as H.
  destruct (process_url_prefix_job (fun _ => inl "boom") job_dequeued job_state) as [r g'].
  destruct H as (_ & Hf & _).
  - intros k e H. cbn [gprefixes job_state] in H.
    apply lookup_insert_Some in H as [[<- <-] | [_ H]]; [reflexivity |].
    rewrite lookup_empty in H. discriminate.
  - apply Hf. discriminate.
Defined.


Lemma run_job_error gen u g msg :
  gen (with_status (Some "in_progress") u) = inl msg ->
  run_job gen u g = (JError, gsave (with_status (Some "failed") (with_status (Some "in_progress") u))
                               (gsave (with_status (Some "in_progress") u) g)).
Proof. intros H. unfold run_job. rewrite H. reflexivity. Qed.

(** X17: without a production config (unset or empty), a synthesis job never succeeds: it is skipped, or it ends in error and its last save marks the prefix [failed]. *)
Theorem no_production_config_job_fails from_config generate_with
    (stored : option string) (u : URLPrefix) (g : GenState) :
  get_production_config stored = None ->
  let '(r, g') := process_url_prefix_job
                    (generate_parser_for_url_prefix from_config generate_with stored) u g in
  (r = JSkipped /\ g' = g) \/
  (r = JError /\ exists l p, gsaves g' = app l [p] /\ processing_status p = Some "failed").
Proof.
  intros Hn.
  assert (Hg : forall v, generate_parser_for_url_prefix from_config generate_with stored v
                         = inl "No production config set").
  { intros v. unfold generate_parser_for_url_prefix, get_production_generator_config.
    rewrite Hn. reflexivity. }
  unfold process_url_prefix_job.
  destruct (gprefixes g !! up_prefix u) as [e|] eqn:He.
  - destruct (status_is "in_progress" e) eqn:Hi; [left; split; reflexivity |].
    destruct (status_is "failed" e) eqn:Hf.
    + unfold reset_failed_url_prefix. rewrite run_job_error with (msg := "No production config set") by apply Hg.
      right. split; [reflexivity |]. do 2 eexists. split; [reflexivity | reflexivity].
    + rewrite run_job_error with (msg := "No production config set") by apply Hg.
      right. split; [reflexivity |]. do 2 eexists. split; [reflexivity | reflexivity].
  - rewrite run_job_error with (msg := "No production config set") by apply Hg.
    right. split; [reflexivity |]. do 2 eexists. split; [reflexivity | reflexivity].
Qed.

Lemma no_production_config_job_fails_witness :
  fst (process_url_prefix_job
         (generate_parser_for_url_prefix (fun _ => inr plain_generator_config)
            (fun _ _ => inr (mkParserConfig main_params "https://a.com/p")) (Some ""))
         job_dequeued job_state) <> JSuccess.
Proof.
  pose proof (no_production_config_job_fails (fun _ => inr plain_generator_config)
                (fun _ _ => inr (mkParserConfig main_params "https://a.com/p")) (Some "")
                job_dequeued job_state) as H.
  destruct (process_url_prefix_job _ job_dequeued job_state) as [r g'].
  destruct H as [[-> _] | [-> _]]; [reflexivity | discriminate | discriminate].
Defined.


Lemma dedupe_spec (seen : gset string) (l : list string) :
  NoDup (dedupe seen l) /\
  forall x, x ∈ dedupe seen l <-> x ∈ l /\ x ∉ seen.
Proof.
  revert seen. induction l as [|y l IH]; intros seen; cbn [dedupe].
  - split; [constructor |]. intros x. split; [intros Hx; inversion Hx | intros [Hx _]; inversion Hx].
  - case_bool_decide as Hy.
    + destruct (IH seen) as [Hn Hm]. split; [exact Hn |].
      intros x. rewrite Hm, elem_of_cons. split; [tauto |].
      intros [[->|Hx] Hs]; [contradiction | tauto].
    + destruct (IH ({[y]} ∪ seen)) as [Hn Hm]. split.
      * constructor; [| exact Hn]. rewrite Hm. intros [_ H]. apply H.
        apply elem_of_union_l, elem_of_singleton. reflexivity.
      * intros x. rewrite elem_of_cons, Hm, elem_of_cons, elem_of_union, elem_of_singleton.
        split.
        -- intros [->|[Hx Hs]]; [tauto |]. split; [tauto | intros Hs'; apply Hs; tauto].
        -- intros [[->|Hx] Hs]; [tauto |].
           destruct (decide (x = y)) as [->|Hne]; [tauto |].
           right. split; [exact Hx | intros [H|H]; contradiction].
Qed.

Lemma link_of_href_some parse_qs urlencode urljoin base target href x :
  link_of_href parse_qs urlencode urljoin base target href = Some x ->
  Py.startswith target x = true /\
  x <> normalize_url parse_qs urlencode base /\
  exists r, Url.urlparse x = inr r /\ name_in (Url.scheme r) ["http"; "https"] = true.
Proof.
  unfold link_of_href.
  destruct (String.eqb href ""); [discriminate |].
  destruct (urljoin base href) as [e|a]; [discriminate |].
  set (nu := normalize_url parse_qs urlencode _).
  destruct (Url.urlparse nu) as [e|r] eqn:Hp; [discriminate |].
  destruct (name_in (Url.scheme r) ["http"; "https"]) eqn:Hs; [| discriminate].
  cbn [negb]. destruct (String.eqb_spec nu (normalize_url parse_qs urlencode base)) as [|Hne];
    [discriminate |].
  destruct (Py.startswith target nu) eqn:Ht; [| discriminate].
  intros H. injection H as <-. split; [exact Ht | split; [exact Hne |]].
  exists r. split; [exact Hp | exact Hs].
Qed.

(** X18: [extract_links_from_html] returns no duplicates, and each link it returns comes from an anchor of the page, starts with the target prefix, is not the normalized base URL and parses with scheme [http] or [https]. *)
Theorem extract_links_sound parse_qs urlencode anchor_hrefs urljoin
    (html base target : string) :
  let links := extract_links_from_html parse_qs urlencode anchor_hrefs urljoin html base target in
  NoDup links /\
  forall x, In x links ->
    Py.startswith target x = true /\
    x <> normalize_url parse_qs urlencode base /\
    (exists r, Url.urlparse x = inr r /\ name_in (Url.scheme r) ["http"; "https"] = true) /\
    exists href, In href (anchor_hrefs html) /\
      link_of_href parse_qs urlencode urljoin base target href = Some x.
Proof.
  intros links. unfold links, extract_links_from_html.
  destruct (dedupe_spec ∅ (omap (link_of_href parse_qs urlencode urljoin base target)
                                  (anchor_hrefs html))) as [Hn Hm].
  split; [exact Hn |].
  intros x Hx. apply list_elem_of_In in Hx. apply Hm in Hx as [Hx _].
  apply list_elem_of_omap in Hx as (href & Hin & Hl).
  destruct (link_of_href_some _ _ _ _ _ _ _ Hl) as (H1 & H2 & H3).
  split; [exact H1 | split; [exact H2 | split; [exact H3 |]]].
  exists href. split; [apply list_elem_of_In; exact Hin | exact Hl].
Qed.

(** X19: [URLPrefixWithUrls.from_url_prefix] lists each URL once in sorted order, with [url_count] its length, and lists exactly the sample URLs, the validation URLs and the stored URL rows of the prefix. *)
Theorem from_url_prefix_sorted_unique (st : Store) (up : URLPrefix) :
  let r := from_url_prefix st up in
  StronglySorted String.le (all_urls r) /\ NoDup (all_urls r) /\
  url_count r = length (all_urls r) /\ url_prefix r = up /\
  forall x, In x (all_urls r) <->
    In x (List.map s_url (sample_urls up)) \/
    (exists vs, validation_urls up = Some vs /\ In x (List.map s_url vs)) \/
    (exists u, In u (find_urls_with_prefix st (up_prefix up)) /\ url u = x).
Proof.
  intros r. unfold r, from_url_prefix. cbn [all_urls url_count url_prefix].
  set (all := app _ _).
  set (X := list_to_set all : gset string).
  pose proof (merge_sort_Permutation String.le (elements X)) as Hp.
  split; [apply StronglySorted_merge_sort; typeclasses eauto |].
  split; [rewrite Hp; apply NoDup_elements |].
  split; [reflexivity | split; [reflexivity |]].
  intros x. rewrite <- list_elem_of_In, Hp, elem_of_elements.
  unfold X. rewrite elem_of_list_to_set. unfold all.
  rewrite !elem_of_app, !list_elem_of_In.
  rewrite (in_map_iff url).
  destruct (validation_urls up) as [vs|].
  - split.
    + intros [H|[H|(u & <- & Hu)]]; [left; exact H | right; left; exists vs; auto | right; right; eauto].
    + intros [H|[(vs' & Hv & H)|(u & Hu & <-)]]; [left; exact H | | right; right; eauto].
      injection Hv as <-. right; left; exact H.
  - split.
    + intros [H|[H|(u & <- & Hu)]]; [left; exact H | inversion H | right; right; eauto].
    + intros [H|[(vs' & Hv & H)|(u & Hu & <-)]]; [left; exact H | discriminate | right; right; eauto].
Qed.

Lemma string_substring_length (s : string) : forall m n,
  String.length (String.substring m n s) = Nat.min n (String.length s - m).
Proof.
  induction s as [|c s IH]; intros m n.
  - destruct m, n; reflexivity.
  - destruct m as [|m].
    + destruct n as [|n]; [reflexivity |]. cbn [String.substring String.length].
      rewrite IH. lia.
    + cbn [String.substring String.length]. rewrite IH. lia.
Qed.

Lemma substring_full (s : string) : String.substring 0 (String.length s) s = s.
Proof. induction s as [|c s IH]; [reflexivity | cbn; rewrite IH; reflexivity]. Qed.

Lemma string_prefix_refl (s : string) : String.prefix s s = true.
Proof.
  induction s as [|c s IH]; [reflexivity |].
  cbn. destruct (Ascii.ascii_dec c c) as [_|n]; [exact IH | contradiction].
Qed.

Lemma contains_refl (s : string) : Py.contains s s = true.
Proof.
  unfold Py.contains. destruct s as [|c s]; [reflexivity |].
  cbn [String.index]. rewrite string_prefix_refl. reflexivity.
Qed.

Lemma contains_length (a b : string) :
  Py.contains a b = true ->
  exists m, String.substring m (String.length a) b = a /\
            (String.length a <= String.length b - m)%nat.
Proof.
  unfold Py.contains. destruct (String.index 0 a b) as [m|] eqn:Hi; [| discriminate].
  intros _. apply String.index_correct1 in Hi. exists m. split; [exact Hi |].
  pose proof (string_substring_length b m (String.length a)) as Hl. rewrite Hi in Hl. lia.
Qed.

Lemma contains_antisym (a b : string) :
  Py.contains a b = true -> Py.contains b a = true -> a = b.
Proof.
  intros Hab Hba.
  destruct (contains_length a b Hab) as (m & Hm & Hlm).
  destruct (contains_length b a Hba) as (m' & _ & Hlm').
  assert (Hlen : String.length a = String.length b) by lia.
  destruct (String.length a) eqn:Ha.
  - destruct a; [| discriminate]. destruct b; [reflexivity | discriminate].
  - assert (m = 0)%nat as -> by lia. rewrite Hlen, substring_full in Hm. symmetry; exact Hm.
Qed.

(** X20: [SampleURL.evaluate] with an empty label raises a division by zero; with a nonempty label it reports the distance over the label length, the label, the parsed text and the URL, and [exact_match] holds exactly when neither content is missing nor extra. *)
Theorem evaluate_label_result distance (self : SampleURL) (parsed config_name domain l : string) :
  s_label self = Some l ->
  (l = "" /\ evaluate distance self parsed config_name domain = inl "division by zero") \/
  (l <> "" /\ exists r, evaluate distance self parsed config_name domain = inr r /\
     distance_num r = distance l parsed /\ distance_den r = String.length l /\
     expected_content r = l /\ e_parsed_content r = parsed /\ e_url r = s_url self /\
     (exact_match r = true <-> missing_content r = false /\ extra_content r = false)).
Proof.
  intros Hl. unfold evaluate. rewrite Hl.
  destruct l as [|c l'].
  - left. split; reflexivity.
  - right. split; [discriminate |]. cbn [String.length Nat.eqb].
    eexists. split; [reflexivity |].
    cbn [exact_match missing_content extra_content distance_num distance_den expected_content e_parsed_content e_url].
    do 5 (split; [reflexivity |]).
    rewrite !negb_false_iff. split.
    + intros H. apply String.eqb_eq in H. rewrite <- H. rewrite contains_refl. auto.
    + intros [H1 H2]. apply String.eqb_eq. apply contains_antisym; assumption.
Qed.

Lemma evaluate_label_result_witness :
  exists r, evaluate (fun _ _ => 0%nat) hello_sample "Hello" "base" "a.com" = inr r /\
            distance_den r = 5%nat /\ exact_match r = true.
Proof.
  destruct (evaluate_label_result (fun _ _ => 0%nat) hello_sample "Hello" "base" "a.com" "Hello")
    as [[Hl _] | (_ & r & He & _ & Hd & _)].
  - reflexivity.
  - discriminate Hl.
  - exists r. split; [exact He | split; [exact Hd |]].
    vm_compute in He. injection He as <-. reflexivity.
Defined.


Lemma pair_leb_total a b : pair_leb a b = false -> pair_leb b a = true.
Proof.
  unfold pair_leb. rewrite (String.compare_antisym (fst b) (fst a)),
                           (String.compare_antisym (snd b) (snd a)).
  destruct (String.compare (fst a) (fst b)); cbn [CompOpp]; try discriminate; [| reflexivity].
  destruct (String.compare (snd a) (snd b)); cbn [CompOpp]; try discriminate; reflexivity.
Qed.

Lemma insert_sorted_sorted x l :
  Sorted (fun a b => pair_leb a b = true) l ->
  Sorted (fun a b => pair_leb a b = true) (insert_sorted x l).
Proof.
  intros Hs. induction Hs as [|y l Hs IH Hh]; cbn [insert_sorted].
  - repeat constructor.
  - destruct (pair_leb x y) eqn:Hxy.
    + constructor; [constructor; assumption | constructor; assumption].
    + constructor; [exact IH |].
      pose proof (pair_leb_total x y Hxy) as Hyx.
      destruct l as [|z l]; cbn [insert_sorted].
      * constructor; exact Hyx.
      * inversion Hh; subst. destruct (pair_leb x z); constructor; assumption.
Qed.

Lemma insert_sorted_forall (P : string * string -> Prop) x l :
  P x -> List.Forall P l -> List.Forall P (insert_sorted x l).
Proof.
  intros Hx Hl. induction Hl as [|y l Hy Hl IH]; cbn [insert_sorted].
  - constructor; [exact Hx | constructor].
  - destruct (pair_leb x y); constructor; try assumption. constructor; assumption.
Qed.

Lemma sort_pairs_spec (P : string * string -> Prop) l :
  List.Forall P l ->
  Sorted (fun a b => pair_leb a b = true) (sort_pairs l) /\ List.Forall P (sort_pairs l).
Proof.
  intros Hl. unfold sort_pairs. induction Hl as [|x l Hx Hl [IH1 IH2]]; cbn [List.fold_right].
  - split; constructor.
  - split; [apply insert_sorted_sorted, IH1 | apply insert_sorted_forall; assumption].
Qed.

Lemma query_pairs_clean (pq : list (string * list string)) :
  List.Forall (fun kv => name_in (Py.lower (fst kv)) tracking_params = false /\
                         Py.strip (snd kv) <> "")
    (List.concat (List.map (fun kv =>
        if name_in (Py.lower (fst kv)) tracking_params then []
        else List.map (fun v => (fst kv, v))
               (List.filter (fun v => negb (String.eqb (Py.strip v) "")) (snd kv)))
      pq)).
Proof.
  induction pq as [|kv pq IH]; cbn [List.map List.concat]; [constructor |].
  apply List.Forall_app. split; [| exact IH].
  destruct (name_in (Py.lower (fst kv)) tracking_params) eqn:Ht; [constructor |].
  apply List.Forall_forall. intros p Hp. apply in_map_iff in Hp as (v & <- & Hv).
  apply filter_In in Hv as [_ Hv]. cbn [fst snd]. split; [exact Ht |].
  apply negb_true_iff, String.eqb_neq in Hv. exact Hv.
Qed.

(** X21: [normalize_url] calls [urlencode] only on a nonempty sorted list of query pairs with no tracking key and no blank value: two encoders that agree on such lists give the same normalized URL. *)
Theorem normalize_url_encodes_clean_sorted parse_qs (urlencode1 urlencode2 : list (string * string) -> string)
    (u : string) :
  (forall qp, qp <> [] -> Sorted (fun a b => pair_leb a b = true) qp ->
     List.Forall (fun kv => name_in (Py.lower (fst kv)) tracking_params = false /\
                            Py.strip (snd kv) <> "") qp ->
     urlencode1 qp = urlencode2 qp) ->
  normalize_url parse_qs urlencode1 u = normalize_url parse_qs urlencode2 u.
Proof.
  intros Hue. unfold normalize_url.
  destruct (Url.urlparse u) as [e|parsed]; [reflexivity |].
  destruct (String.eqb (Url.query parsed) ""); [reflexivity |].
  set (raw := List.concat _).
  destruct (sort_pairs_spec _ raw (query_pairs_clean _)) as [Hs Hf].
  destruct (sort_pairs raw) as [|p ps] eqn:Hsp; [reflexivity |].
  rewrite (Hue (p :: ps)); [reflexivity | discriminate | exact Hs | exact Hf].
Qed.

Lemma normalize_url_encodes_clean_sorted_witness :
  normalize_url two_pairs_qs keys_encode "https://www.a.com/p/?b=2&a=1"
  = normalize_url two_pairs_qs keys_encode_or_blank "https://www.a.com/p/?b=2&a=1".
Proof.
  apply normalize_url_encodes_clean_sorted.
  intros qp Hne _ _. destruct qp as [|kv qp]; [contradiction | reflexivity].
Defined.

